(** * kansible: the SSH transport ([ssh/ssh.go]) and the host-claim protocol

    The first part embeds [ssh/ssh.go]: [RemoteSSHCommand] and
    [PublicKeyFile] are written as programs over the calls they make to
    the Go libraries ([io/ioutil], [golang.org/x/crypto/ssh], the
    logger), and are run against an arbitrary environment that answers
    every call.  The second part models the claim protocol of the
    specification. *)

From Stdlib Require Import ZArith String List.
From stdpp Require Import base option list gmap strings sorting.

Local Open Scope string_scope.
Local Open Scope Z_scope.
Local Open Scope list_scope.

Module SSH.

(** ** Values of the Go program *)

(** A Go [error] value.  [LibError] is an error produced by a library
    call; [Errorf format args] is the value of [fmt.Errorf(format,
    args...)], kept as the call that built it.  A nil [error] is [None]
    of [option error]. *)
Inductive error : Type :=
| LibError (msg : string)
| Errorf (format : string) (args : list fmtarg)
with fmtarg : Type :=
| ArgString (s : string)
| ArgError (e : error).

(** A Go pair [(value, err)] as returned by the library calls. *)
Inductive result (A : Type) : Type :=
| Ok (a : A)
| Err (e : error).
Arguments Ok {A} a.
Arguments Err {A} e.

(** Handles to the objects the ssh library hands out. *)
Variant Signer := SignerHandle (n : nat).
Variant Client := ClientHandle (n : nat).
Variant Session := SessionHandle (n : nat).
Variant Pipe := PipeHandle (n : nat).

(** [ssh.AuthMethod]; the nil interface value is [None] of
    [option AuthMethod]. *)
Variant AuthMethod := PublicKeys (key : Signer).

(** [ssh.ClientConfig], with the fields this program sets and
    [Timeout].  A field left out of a Go composite literal holds its
    zero value; for [Timeout] the library documents zero as
    no timeout. *)
Record ClientConfig := {
  User : string;
  Auth : list (option AuthMethod);
  Timeout : Z
}.

(** [net.JoinHostPort(host, port)], kept as the pair it joins. *)
Record HostPort := JoinHostPort { hp_host : string; hp_port : string }.

(** [ssh.TerminalModes] is a map from opcode to value. *)
Abbreviation TerminalModes := (gmap Z Z).
Definition TTY_OP_ISPEED : Z := 128.
Definition TTY_OP_OSPEED : Z := 129.

(** The ends of an [io.Copy]: the process's own standard streams or a
    pipe of the session. *)
Variant stream := os_Stdin | os_Stdout | os_Stderr | OfPipe (p : Pipe).

(** ** Calls to the outside *)

(** One constructor per library call of [ssh.go]; the index is the type
    of the call's answer.  [GoCopy dst src] is the statement
    [go io.Copy(dst, src)]: it starts the copy and has no answer.
    [MapRange m] is the order in which a [range] over the map [m] visits
    its entries, which the Go runtime chooses. *)
Inductive sshE : Type -> Type :=
| LogInfo (format : string) (args : list fmtarg) : sshE unit
| LogWarn (format : string) (args : list fmtarg) : sshE unit
| ReadFile (file : string) : sshE (result (list Byte.byte))
| ParsePrivateKey (buffer : list Byte.byte) : sshE (result Signer)
| Dial (network : string) (addr : HostPort) (config : option ClientConfig)
    : sshE (result Client)
| NewSession (connection : Client) : sshE (result Session)
| RequestPty (session : Session) (term : string) (h w : Z)
    (termmodes : TerminalModes) : sshE (option error)
| StdinPipe (session : Session) : sshE (result Pipe)
| StdoutPipe (session : Session) : sshE (result Pipe)
| StderrPipe (session : Session) : sshE (result Pipe)
| GoCopy (dst src : stream) : sshE unit
| MapRange (m : gmap string string) : sshE (list (string * string))
| Setenv (session : Session) (name value : string) : sshE (option error)
| Run (session : Session) (cmd : string) : sshE (option error)
| Close (session : Session) : sshE unit.

(** Programs: a tree of calls, each continued with its answer. *)
Inductive prog (R : Type) : Type :=
| Ret (r : R)
| Vis {X : Type} (e : sshE X) (k : X -> prog R).
Arguments Ret {R} r.
Arguments Vis {R X} e k.

Fixpoint bind {A B} (p : prog A) (f : A -> prog B) : prog B :=
  match p with
  | Ret a => f a
  | Vis e k => Vis e (fun x => bind (k x) f)
  end.

Definition call {X} (e : sshE X) : prog X := Vis e Ret.

#[export] Instance prog_ret : MRet prog := @Ret.
#[export] Instance prog_bind : MBind prog := fun A B f p => bind p f.

(** [defer d; body]: [d] runs when [body] has produced the function's
    result. *)
Definition defer {R} (d : prog unit) (body : prog R) : prog R :=
  r ← body; d;; Ret r.

(** ** [ssh.go] *)

(** [PublicKeyFile] creates the auth method for the given private key
    file. *)
Definition PublicKeyFile (file : string) : prog (option AuthMethod) :=
  r ← call (ReadFile file);
  match r with
  | Err _ => Ret None
  | Ok buffer =>
      k ← call (ParsePrivateKey buffer);
      match k with
      | Err _ => Ret None
      | Ok key => Ret (Some (PublicKeys key))
      end
  end.

(** The format string of the error for a variable that could not be
    set. *)
Definition setenv_failed : string :=
  "Could not set environment variable %s = %s over SSH. This could be disabled by the sshd configuration. See the `AcceptEnv` setting in your /etc/ssh/sshd_config more info: http://linux.die.net/man/5/sshd_config . Error: %s".

(** The body of [for envName, envValue := range envVars], over the
    entries in the order of the range.  [Some e] is a [return e] out of
    the loop; [None] falls through to the statement after it. *)
Fixpoint setenv_loop (session : Session) (entries : list (string * string))
  : prog (option error) :=
  match entries with
  | [] => Ret None
  | (envName, envValue) :: rest =>
      call (LogInfo "Setting environment value %s = %s"
              [ArgString envName; ArgString envValue]);;
      r ← call (Setenv session envName envValue);
      match r with
      | Some err =>
          Ret (Some (Errorf setenv_failed
                       [ArgString envName; ArgString envValue; ArgError err]))
      | None => setenv_loop session rest
      end
  end.

(** [RemoteSSHCommand] invokes the given command on a host and port. *)
Definition RemoteSSHCommand (user privateKey host port cmd : string)
    (envVars : gmap string string) : prog (option error) :=
  if Nat.eqb (String.length privateKey) 0 then
    Ret (Some (Errorf "Could not find PrivateKey for entry %s" [ArgString host]))
  else
  call (LogInfo "Connecting to host over SSH on host %s and port %d with user %s with command `%s`"
          [ArgString host; ArgString port; ArgString user; ArgString cmd]);;
  let hostPort := JoinHostPort host port in
  auth ← PublicKeyFile privateKey;
  let sshConfig := Some {| User := user; Auth := [auth]; Timeout := 0 |} in
  match sshConfig with
  | None => call (LogWarn "No sshConfig could be created!" [])
  | Some _ => Ret tt
  end;;
  c ← call (Dial "tcp" hostPort sshConfig);
  match c with
  | Err err => Ret (Some (Errorf "Failed to dial: %s" [ArgError err]))
  | Ok connection =>
  s ← call (NewSession connection);
  match s with
  | Err err => Ret (Some (Errorf "Failed to create session: %s" [ArgError err]))
  | Ok session =>
  defer (call (Close session)) (
  let modes : TerminalModes :=
    {[ TTY_OP_ISPEED := 14400; TTY_OP_OSPEED := 14400 ]} in
  p ← call (RequestPty session "xterm" 80 40 modes);
  match p with
  | Some err =>
      Ret (Some (Errorf "Request for pseudo terminal failed: %s" [ArgError err]))
  | None =>
  i ← call (StdinPipe session);
  match i with
  | Err err =>
      Ret (Some (Errorf "Unable to setup stdin for session: %v" [ArgError err]))
  | Ok stdin =>
  call (GoCopy (OfPipe stdin) os_Stdin);;
  o ← call (StdoutPipe session);
  match o with
  | Err err =>
      Ret (Some (Errorf "Unable to setup stdout for session: %v" [ArgError err]))
  | Ok stdout =>
  call (GoCopy os_Stdout (OfPipe stdout));;
  e ← call (StderrPipe session);
  match e with
  | Err err =>
      Ret (Some (Errorf "Unable to setup stderr for session: %v" [ArgError err]))
  | Ok stderr =>
  call (GoCopy os_Stderr (OfPipe stderr));;
  entries ← call (MapRange envVars);
  l ← setenv_loop session entries;
  match l with
  | Some err => Ret (Some err)
  | None =>
  call (LogInfo "Running command %s" [ArgString cmd]);;
  r ← call (Run session cmd);
  match r with
  | Some err =>
      Ret (Some (Errorf ("Failed to run command: " +:+ cmd +:+ ": %v")
                   [ArgError err]))
  | None => Ret None
  end end end end end end) end end.

(** ** Running a program *)

(** A call together with the answer it got. *)
Inductive entry : Type :=
| Entry {X : Type} (e : sshE X) (x : X).

Definition trace := list entry.

(** The environment answers every call, and may take into account
    everything that happened before it.  A run against it is a run in
    which every call returns; [PartialWorld] below is for the runs in
    which one does not. *)
Definition World := trace -> forall X, sshE X -> X.

(** [exec w h p] runs [p] after the history [h]; it gives the calls [p]
    made, in order, and its result. *)
Fixpoint exec {R} (w : World) (h : trace) (p : prog R) : trace * R :=
  match p with
  | Ret r => ([], r)
  | Vis e k =>
      let x := w h _ e in
      let '(t, r) := exec w (h ++ [Entry e x]) (k x) in
      (Entry e x :: t, r)
  end.

(** The calls a program makes and the value it returns. *)
Definition calls {R} (w : World) (h : trace) (p : prog R) : trace :=
  (exec w h p).1.
Definition returns {R} (w : World) (h : trace) (p : prog R) : R :=
  (exec w h p).2.

(** *** Reading a trace *)

Definition is_Dial (en : entry) : bool :=
  match en with Entry e _ => match e with Dial _ _ _ => true | _ => false end end.
Definition is_Run (en : entry) : bool :=
  match en with Entry e _ => match e with Run _ _ => true | _ => false end end.
Definition is_RequestPty (en : entry) : bool :=
  match en with
  | Entry e _ => match e with RequestPty _ _ _ _ _ => true | _ => false end
  end.

(** The arguments and the answer of a call, when the entry is that
    call. *)
Definition readfile_of (en : entry)
  : option (string * result (list Byte.byte)) :=
  match en with
  | Entry e x =>
      match e in sshE X return X -> _ with
      | ReadFile f => fun r => Some (f, r)
      | _ => fun _ => None
      end x
  end.

Definition parse_of (en : entry) : option (list Byte.byte * result Signer) :=
  match en with
  | Entry e x =>
      match e in sshE X return X -> _ with
      | ParsePrivateKey b => fun r => Some (b, r)
      | _ => fun _ => None
      end x
  end.

Definition dial_of (en : entry)
  : option (string * HostPort * option ClientConfig * result Client) :=
  match en with
  | Entry e x =>
      match e in sshE X return X -> _ with
      | Dial n a c => fun r => Some (n, a, c, r)
      | _ => fun _ => None
      end x
  end.

Definition newsession_of (en : entry) : option (Client * result Session) :=
  match en with
  | Entry e x =>
      match e in sshE X return X -> _ with
      | NewSession c => fun r => Some (c, r)
      | _ => fun _ => None
      end x
  end.

Definition pty_of (en : entry)
  : option (Session * string * Z * Z * TerminalModes * option error) :=
  match en with
  | Entry e x =>
      match e in sshE X return X -> _ with
      | RequestPty s term h w m => fun r => Some (s, term, h, w, m, r)
      | _ => fun _ => None
      end x
  end.

Definition setenv_of (en : entry)
  : option (Session * string * string * option error) :=
  match en with
  | Entry e x =>
      match e in sshE X return X -> _ with
      | Setenv s n v => fun r => Some (s, n, v, r)
      | _ => fun _ => None
      end x
  end.

Definition run_of (en : entry) : option (Session * string * option error) :=
  match en with
  | Entry e x =>
      match e in sshE X return X -> _ with
      | Run s c => fun r => Some (s, c, r)
      | _ => fun _ => None
      end x
  end.

Definition gocopy_of (en : entry) : option (stream * stream) :=
  match en with
  | Entry e _ => match e with GoCopy d s => Some (d, s) | _ => None end
  end.

(** The calls made before the first call that satisfies [P], and the
    calls from that one on. *)
Fixpoint before (P : entry -> bool) (t : trace) : trace :=
  match t with
  | [] => []
  | en :: t' => if P en then [] else en :: before P t'
  end.

Fixpoint from (P : entry -> bool) (t : trace) : trace :=
  match t with
  | [] => []
  | en :: t' => if P en then en :: t' else from P t'
  end.

(** A range that visits every entry of the map once, in some order. *)
Definition range_ok (w : World) : Prop :=
  forall h m, w h _ (MapRange m) ≡ₚ map_to_list m.

(** *** Environments to run against *)

(** The answers of a scripted environment: one per kind of call that
    can fail here. *)
Record answers := {
  on_ReadFile : result (list Byte.byte);
  on_ParsePrivateKey : result Signer;
  on_Dial : result Client;
  on_NewSession : result Session;
  on_RequestPty : option error;
  on_Setenv : string -> string -> option error;
  on_Run : option error
}.

(** The environment that answers by the script; the pipes are always
    there and a range visits a map in the order of [map_to_list]. *)
Definition scripted (a : answers) : World := fun _ X e =>
  match e in sshE X return X with
  | LogInfo _ _ | LogWarn _ _ | GoCopy _ _ | Close _ => tt
  | ReadFile _ => on_ReadFile a
  | ParsePrivateKey _ => on_ParsePrivateKey a
  | Dial _ _ _ => on_Dial a
  | NewSession _ => on_NewSession a
  | RequestPty _ _ _ _ _ => on_RequestPty a
  | StdinPipe _ => Ok (PipeHandle 0)
  | StdoutPipe _ => Ok (PipeHandle 1)
  | StderrPipe _ => Ok (PipeHandle 2)
  | MapRange m => map_to_list m
  | Setenv _ name value => on_Setenv a name value
  | Run _ _ => on_Run a
  end.

(** Every call succeeds and the command exits with status zero. *)
Definition all_succeed : answers := {|
  on_ReadFile := Ok [];
  on_ParsePrivateKey := Ok (SignerHandle 0);
  on_Dial := Ok (ClientHandle 0);
  on_NewSession := Ok (SessionHandle 0);
  on_RequestPty := None;
  on_Setenv := fun _ _ => None;
  on_Run := None
|}.

(** The same with one answer changed. *)
Definition dial_refused : answers := {|
  on_ReadFile := Ok [];
  on_ParsePrivateKey := Ok (SignerHandle 0);
  on_Dial := Err (LibError "dial tcp: connection refused");
  on_NewSession := Ok (SessionHandle 0);
  on_RequestPty := None;
  on_Setenv := fun _ _ => None;
  on_Run := None
|}.


Definition setenv_rejected : answers := {|
  on_ReadFile := Ok [];
  on_ParsePrivateKey := Ok (SignerHandle 0);
  on_Dial := Ok (ClientHandle 0);
  on_NewSession := Ok (SessionHandle 0);
  on_RequestPty := None;
  on_Setenv := fun _ _ => Some (LibError "ssh: setenv failed");
  on_Run := None
|}.

Definition pty_rejected : answers := {|
  on_ReadFile := Ok [];
  on_ParsePrivateKey := Ok (SignerHandle 0);
  on_Dial := Ok (ClientHandle 0);
  on_NewSession := Ok (SessionHandle 0);
  on_RequestPty := Some (LibError "ssh: pty-req failed");
  on_Setenv := fun _ _ => None;
  on_Run := None
|}.

Definition exits_with_status_3 : answers := {|
  on_ReadFile := Ok [];
  on_ParsePrivateKey := Ok (SignerHandle 0);
  on_Dial := Ok (ClientHandle 0);
  on_NewSession := Ok (SessionHandle 0);
  on_RequestPty := None;
  on_Setenv := fun _ _ => None;
  on_Run := Some (LibError "Process exited with status 3")
|}.

(** *** Readings of a trace that the properties below decide *)

(** Every dial of the trace carries a configuration with a positive
    connect timeout. *)
Definition connect_timeout_set (t : trace) : Prop :=
  forall n a c res, (n, a, c, res) ∈ omap dial_of t ->
    exists cfg, c = Some cfg /\ 0 < Timeout cfg.

(** When the command is run, every pair of [envVars] has been set
    before it, and so has a variable that is not a pair of [envVars]
    (the metadata that identifies the worker). *)
Definition injects_env_and_identity (envVars : gmap string string)
    (t : trace) : Prop :=
  omap run_of t <> [] ->
  (forall k v, envVars !! k = Some v ->
     exists s, (s, k, v, None) ∈ omap setenv_of (before is_Run t)) /\
  (exists s k v, (s, k, v, None) ∈ omap setenv_of (before is_Run t) /\
     envVars !! k <> Some v).


(** Every pseudo-terminal request of the trace is for an ["xterm"] of
    80 columns by 40 rows.  The library's signature is
    [RequestPty(term string, h, w int, termmodes TerminalModes)]: [h]
    is the number of rows and [w] the number of columns. *)
Definition pty_80_columns_40_rows (t : trace) : Prop :=
  forall s term h w m res, (s, term, h, w, m, res) ∈ omap pty_of t ->
    term = "xterm" /\ w = 80 /\ h = 40.

(** *** The shapes a call of [RemoteSSHCommand] can take

    One constructor per way through the function: the calls made, in
    order, and the value returned.  [RemoteSSHCommand_outcome] below
    shows that every run has one of these shapes. *)

Definition env_set (session : Session) (r : option error)
    (kv : string * string) : Session * string * string * option error :=
  (session, kv.1, kv.2, r).

Inductive keyfile_calls (file : string) : trace -> option AuthMethod -> Prop :=
| key_unreadable e :
    keyfile_calls file [Entry (ReadFile file) (Err e)] None
| key_unparsable buffer e :
    keyfile_calls file
      [Entry (ReadFile file) (Ok buffer);
       Entry (ParsePrivateKey buffer) (Err e)] None
| key_parsed buffer key :
    keyfile_calls file
      [Entry (ReadFile file) (Ok buffer);
       Entry (ParsePrivateKey buffer) (Ok key)] (Some (PublicKeys key)).

Inductive loop_calls (session : Session)
  : list (string * string) -> trace -> option error -> Prop :=
| loop_done : loop_calls session [] [] None
| loop_failed envName envValue rest err :
    loop_calls session ((envName, envValue) :: rest)
      [Entry (LogInfo "Setting environment value %s = %s"
                [ArgString envName; ArgString envValue]) tt;
       Entry (Setenv session envName envValue) (Some err)]
      (Some (Errorf setenv_failed
               [ArgString envName; ArgString envValue; ArgError err]))
| loop_next envName envValue rest t r :
    loop_calls session rest t r ->
    loop_calls session ((envName, envValue) :: rest)
      (Entry (LogInfo "Setting environment value %s = %s"
                [ArgString envName; ArgString envValue]) tt
       :: Entry (Setenv session envName envValue) None :: t) r.

Section Shapes.
Variables (w : World) (user privateKey host port cmd : string).
Variable envVars : gmap string string.

Definition pty_request (session : Session) (r : option error) : entry :=
  Entry (RequestPty session "xterm" 80 40
           {[ TTY_OP_ISPEED := 14400; TTY_OP_OSPEED := 14400 ]}) r.

Definition piped (session : Session) (stdin stdout stderr : Pipe) : trace :=
  [pty_request session None;
   Entry (StdinPipe session) (Ok stdin);
   Entry (GoCopy (OfPipe stdin) os_Stdin) tt;
   Entry (StdoutPipe session) (Ok stdout);
   Entry (GoCopy os_Stdout (OfPipe stdout)) tt;
   Entry (StderrPipe session) (Ok stderr);
   Entry (GoCopy os_Stderr (OfPipe stderr)) tt].

Inductive in_session (session : Session) : trace -> option error -> Prop :=
| pty_refused e :
    in_session session [pty_request session (Some e)]
      (Some (Errorf "Request for pseudo terminal failed: %s" [ArgError e]))
| stdin_failed e :
    in_session session
      [pty_request session None; Entry (StdinPipe session) (Err e)]
      (Some (Errorf "Unable to setup stdin for session: %v" [ArgError e]))
| stdout_failed stdin e :
    in_session session
      [pty_request session None;
       Entry (StdinPipe session) (Ok stdin);
       Entry (GoCopy (OfPipe stdin) os_Stdin) tt;
       Entry (StdoutPipe session) (Err e)]
      (Some (Errorf "Unable to setup stdout for session: %v" [ArgError e]))
| stderr_failed stdin stdout e :
    in_session session
      [pty_request session None;
       Entry (StdinPipe session) (Ok stdin);
       Entry (GoCopy (OfPipe stdin) os_Stdin) tt;
       Entry (StdoutPipe session) (Ok stdout);
       Entry (GoCopy os_Stdout (OfPipe stdout)) tt;
       Entry (StderrPipe session) (Err e)]
      (Some (Errorf "Unable to setup stderr for session: %v" [ArgError e]))
| setenv_refused stdin stdout stderr h entries t err :
    entries = w h _ (MapRange envVars) ->
    loop_calls session entries t (Some err) ->
    in_session session
      (piped session stdin stdout stderr
       ++ Entry (MapRange envVars) entries :: t)
      (Some err)
| command_run stdin stdout stderr h entries t r :
    entries = w h _ (MapRange envVars) ->
    loop_calls session entries t None ->
    in_session session
      (piped session stdin stdout stderr
       ++ Entry (MapRange envVars) entries :: t
       ++ [Entry (LogInfo "Running command %s" [ArgString cmd]) tt;
           Entry (Run session cmd) r])
      match r with
      | Some err =>
          Some (Errorf ("Failed to run command: " +:+ cmd +:+ ": %v")
                  [ArgError err])
      | None => None
      end.

Definition opening (keyt : trace) (auth : option AuthMethod)
    (r : result Client) : trace :=
  Entry (LogInfo "Connecting to host over SSH on host %s and port %d with user %s with command `%s`"
           [ArgString host; ArgString port; ArgString user; ArgString cmd]) tt
  :: keyt
  ++ [Entry (Dial "tcp" (JoinHostPort host port)
               (Some {| User := user; Auth := [auth]; Timeout := 0 |})) r].

Inductive outcome : trace -> option error -> Prop :=
| no_private_key :
    String.length privateKey = 0%nat ->
    outcome []
      (Some (Errorf "Could not find PrivateKey for entry %s" [ArgString host]))
| dial_failed keyt auth e :
    String.length privateKey <> 0%nat ->
    keyfile_calls privateKey keyt auth ->
    outcome (opening keyt auth (Err e))
      (Some (Errorf "Failed to dial: %s" [ArgError e]))
| session_failed keyt auth connection e :
    String.length privateKey <> 0%nat ->
    keyfile_calls privateKey keyt auth ->
    outcome (opening keyt auth (Ok connection)
             ++ [Entry (NewSession connection) (Err e)])
      (Some (Errorf "Failed to create session: %s" [ArgError e]))
| session_used keyt auth connection session t r :
    String.length privateKey <> 0%nat ->
    keyfile_calls privateKey keyt auth ->
    in_session session t r ->
    outcome (opening keyt auth (Ok connection)
             ++ Entry (NewSession connection) (Ok session) :: t
             ++ [Entry (Close session) tt])
      r.
End Shapes.

(** *** More readings of a trace *)

Definition is_Close (en : entry) : bool :=
  match en with Entry e _ => match e with Close _ => true | _ => false end end.

(** The session a [Close] closes. *)
Definition close_of (en : entry) : option Session :=
  match en with
  | Entry e _ => match e with Close s => Some s | _ => None end
  end.

(** The three standard streams of the session. *)
Variant std := Stdin | Stdout | Stderr.

Definition std_name (k : std) : string :=
  match k with Stdin => "stdin" | Stdout => "stdout" | Stderr => "stderr" end.

(** The stream, the session and the answer of a [StdinPipe],
    [StdoutPipe] or [StderrPipe]. *)
Definition pipe_of (en : entry) : option (std * Session * result Pipe) :=
  match en with
  | Entry e x =>
      match e in sshE X return X -> _ with
      | StdinPipe s => fun r => Some (Stdin, s, r)
      | StdoutPipe s => fun r => Some (Stdout, s, r)
      | StderrPipe s => fun r => Some (Stderr, s, r)
      | _ => fun _ => None
      end x
  end.

(** The copy that serves a pipe: into the pipe from the process's stdin,
    out of the pipe to the process's stdout or stderr. *)
Definition wired (x : std * Session * result Pipe) : option (stream * stream) :=
  match x with
  | (Stdin, _, Ok p) => Some (OfPipe p, os_Stdin)
  | (Stdout, _, Ok p) => Some (os_Stdout, OfPipe p)
  | (Stderr, _, Ok p) => Some (os_Stderr, OfPipe p)
  | (_, _, Err _) => None
  end.

(** The session a [NewSession] gave, if it gave one. *)
Definition opened (x : Client * result Session) : option Session :=
  match x.2 with Ok s => Some s | Err _ => None end.

(** The map a range is over and the order it answered. *)
Definition range_of (en : entry)
  : option (gmap string string * list (string * string)) :=
  match en with
  | Entry e x =>
      match e in sshE X return X -> _ with
      | MapRange m => fun r => Some (m, r)
      | _ => fun _ => None
      end x
  end.

(** The session a call works on. *)
Definition session_of (en : entry) : option Session :=
  match en with
  | Entry e _ =>
      match e with
      | RequestPty s _ _ _ _ | StdinPipe s | StdoutPipe s | StderrPipe s
      | Setenv s _ _ | Run s _ | Close s => Some s
      | _ => None
      end
  end.

(** The name and the value of a log line of the loop. *)
Definition setenv_log_of (en : entry) : option (string * string) :=
  match en with
  | Entry e _ =>
      match e with
      | LogInfo format [ArgString name; ArgString value] =>
          if String.eqb format "Setting environment value %s = %s"
          then Some (name, value) else None
      | _ => None
      end
  end.

Definition setenv_pair (x : Session * string * string * option error)
  : string * string :=
  (x.1.1.2, x.1.2).

(** The error a call answered with, for the calls whose error
    [RemoteSSHCommand] looks at (the errors of [ReadFile] and
    [ParsePrivateKey] are dropped by [PublicKeyFile]). *)
Definition failure_of (en : entry) : option error :=
  match en with
  | Entry e x =>
      match e in sshE X return X -> _ with
      | Dial _ _ _ => fun r => match r with Err e => Some e | Ok _ => None end
      | NewSession _ => fun r => match r with Err e => Some e | Ok _ => None end
      | StdinPipe _ | StdoutPipe _ | StderrPipe _ =>
          fun r => match r with Err e => Some e | Ok _ => None end
      | RequestPty _ _ _ _ _ | Setenv _ _ _ | Run _ _ => fun r => r
      | _ => fun _ => None
      end x
  end.

Definition is_failure (en : entry) : bool :=
  match failure_of en with Some _ => true | None => false end.

(** An environment in which everything succeeds but the stdout pipe. *)
Definition stdout_pipe_fails : World := fun h X e =>
  match e in sshE X return X with
  | StdoutPipe _ => Err (LibError "ssh: Stdout already set")
  | e' => scripted all_succeed h _ e'
  end.

(** *** Calls that do not return *)

(** An environment in which a call may not return: it panics inside the
    library, or blocks for ever.  [None] is such a call. *)
Definition PartialWorld := trace -> forall X, sshE X -> option X.

(** How a run ends: the program returns, or it is left in a call that
    does not return. *)
Inductive ending (R : Type) : Type :=
| Returned (r : R)
| NeverReturns {X : Type} (e : sshE X).
Arguments Returned {R} r.
Arguments NeverReturns {R X} e.

(** [exec_partial w h p] is [exec] for such an environment: the calls
    that were answered, in order, and how the run ends. *)
Fixpoint exec_partial {R} (w : PartialWorld) (h : trace) (p : prog R)
  : trace * ending R :=
  match p with
  | Ret r => ([], Returned r)
  | Vis e k =>
      match w h _ e with
      | None => ([], NeverReturns e)
      | Some x =>
          let '(t, r) := exec_partial w (h ++ [Entry e x]) (k x) in
          (Entry e x :: t, r)
      end
  end.

Definition ends {R} (w : PartialWorld) (h : trace) (p : prog R) : ending R :=
  (exec_partial w h p).2.



(** The key file cannot be read and the server asks for no
    authentication: everything else succeeds. *)
Definition key_unreadable_no_auth_asked : answers := {|
  on_ReadFile := Err (LibError "open key: no such file or directory");
  on_ParsePrivateKey := Ok (SignerHandle 0);
  on_Dial := Ok (ClientHandle 0);
  on_NewSession := Ok (SessionHandle 0);
  on_RequestPty := None;
  on_Setenv := fun _ _ => None;
  on_Run := None
|}.

(** The key file cannot be read and the dial, given a nil auth method,
    does not return. *)
Definition key_unreadable_dial_panics : PartialWorld := fun h X e =>
  match e in sshE X return option X with
  | Dial _ _ (Some {| Auth := None :: _ |}) => None
  | e' => Some (scripted key_unreadable_no_auth_asked h _ e')
  end.

End SSH.

(** * The host-claim protocol *)

Module Claims.

(** The host-claim protocol (InventoryModel, ClaimStore, HostClaimer,
    StatusReporter) is not in [ssh/ssh.go]; it is modelled here from
    sections 3, 4.1, 4.3 and 4.4 of the specification.  Workers run
    interleaved, one protocol step at a time; each conditional write is
    one atomic step on the store; all workers read one clock. *)

(** Modelled from the spec: [HostEntry], one claimable target of the
    inventory (the inventory code is missing); [name] is its key. *)
Record HostEntry := {
  name : string;
  address : string;
  port : string
}.

(** Modelled from the spec: the states of a claim (the claim code is
    missing). *)
Inductive ClaimState := Claiming | Running | Failed | Released.

(** Modelled from the spec: [Claim], the record written into the store
    for a host (the claim code is missing). *)
Record Claim := {
  ownerId : string;
  state : ClaimState;
  lastHeartbeat : nat
}.

#[export] Instance ClaimState_eq_dec : EqDecision ClaimState.
Proof. solve_decision. Defined.
#[export] Instance Claim_eq_dec : EqDecision Claim.
Proof. solve_decision. Defined.

(** Modelled from the spec: the ClaimStore (the store code is missing),
    a map from host name to the claim on it; the prefix [hostClaim/] of
    the stored keys is left out. *)
Abbreviation ClaimStore := (gmap string Claim).

(** Modelled from the spec: [ReadAll] of the ClaimStore (the store code
    is missing). *)
Definition ReadAll (store : ClaimStore) : gmap string Claim := store.

(** Modelled from the spec: [ConditionalWrite] of the ClaimStore (the
    store code is missing).  The write succeeds only if the stored value
    is [expectedPrior] ([None]: no claim stored); the result [None] is a
    conflict. *)
Definition ConditionalWrite (store : ClaimStore) (hostName : string)
    (expectedPrior : option Claim) (newClaim : Claim) : option ClaimStore :=
  if decide (store !! hostName = expectedPrior)
  then Some (<[hostName := newClaim]> store)
  else None.

(** Modelled from the spec: staleness (the HostClaimer code is
    missing), a heartbeat older than [T_stale]. *)
Definition stale (T_stale now : nat) (c : Claim) : bool :=
  (lastHeartbeat c + T_stale <? now)%nat.

(** The states in which a claim counts as held. *)
Definition active (st : ClaimState) : bool :=
  match st with Claiming | Running => true | Failed | Released => false end.

(** Modelled from the spec: a live claim (the claim code is missing),
    one in state Claiming or Running with a fresh heartbeat. *)
Definition live (T_stale now : nat) (c : Claim) : bool :=
  active (state c) && negb (stale T_stale now c).

(** Modelled from the spec: the hosts [AcquireHost] may claim (the
    HostClaimer code is missing): a host with no claim, or whose claim
    is stale (step 2), or whose claim was released (a release makes the
    host eligible for reclaim, section 3). *)
Definition claimable (T_stale now : nat) (prior : option Claim) : bool :=
  match prior with
  | None => true
  | Some c =>
      stale T_stale now c || bool_decide (state c = Released)
  end.

(** The order of candidates: by host name. *)
Definition by_name (a b : HostEntry) : Prop := String.leb (name a) (name b).

#[export] Instance by_name_dec a b : Decision (by_name a b).
Proof. unfold by_name. apply _. Defined.

(** Modelled from the spec: steps 2 and 3 of [AcquireHost] (the
    HostClaimer code is missing): the claimable hosts of the inventory,
    ordered by name. *)
Definition candidates (T_stale now : nat) (snapshot : gmap string Claim)
    (inventory : list HostEntry) : list HostEntry :=
  merge_sort by_name
    (filter (fun h => claimable T_stale now (snapshot !! name h)) inventory).

(** Modelled from the spec: what a worker is doing (the worker code is
    missing): nothing; in the middle of [AcquireHost], with the claims
    it read and the candidates it has not tried yet; or supervising
    [host] under the claim it wrote last. *)
Inductive WorkerState :=
| Idle
| Acquiring (snapshot : gmap string Claim) (untried : list HostEntry)
| Holding (host : HostEntry) (claim : Claim).

(** The store, the clock and the workers. *)
Record System := {
  store : ClaimStore;
  now : nat;
  workers : gmap string WorkerState
}.

Definition worker (sys : System) (workerId : string) : WorkerState :=
  default Idle (workers sys !! workerId).

Definition set_worker (sys : System) (workerId : string) (ws : WorkerState)
  : System :=
  {| store := store sys; now := now sys;
     workers := <[workerId := ws]> (workers sys) |}.

(** Modelled from the spec: the steps workers and time can take (the
    worker code is missing); [step] below says what each does. *)
Inductive Action :=
| Tick (d : nat)
| BeginAcquire (workerId : string)
| TryCandidate (workerId : string)
| StatusWrite (workerId : string) (st : ClaimState)
| Crash (workerId : string).

Section Protocol.
Variable T_stale : nat.
Variable inventory : list HostEntry.

(** Modelled from the spec: the steps of HostClaimer and
    StatusReporter (their code is missing).
    - [Tick d]: time passes.
    - [BeginAcquire w]: steps 1 to 3 of [AcquireHost].
    - [TryCandidate w]: step 4 for the next candidate, the first
      success wins; step 5 ([NoHostAvailable]) when none is left.
    - [StatusWrite w st]: the StatusReporter rewrites the claim of
      [w] with a fresh heartbeat and the state [st], guarded by the
      claim [w] wrote last; a conflict is [ClaimLost], and after
      writing Failed or Released the worker holds nothing.
    - [Crash w]: the worker is gone without a write. *)
Definition step (sys : System) (a : Action) : System :=
  match a with
  | Tick d =>
      {| store := store sys; now := (now sys + d)%nat;
         workers := workers sys |}
  | BeginAcquire w =>
      match worker sys w with
      | Idle =>
          let snapshot := ReadAll (store sys) in
          set_worker sys w
            (Acquiring snapshot
               (candidates T_stale (now sys) snapshot inventory))
      | _ => sys
      end
  | TryCandidate w =>
      match worker sys w with
      | Acquiring snapshot [] => set_worker sys w Idle
      | Acquiring snapshot (h :: rest) =>
          let c := {| ownerId := w; state := Claiming;
                      lastHeartbeat := now sys |} in
          match ConditionalWrite (store sys) (name h)
                  (snapshot !! name h) c with
          | Some store' =>
              {| store := store'; now := now sys;
                 workers := <[w := Holding h c]> (workers sys) |}
          | None => set_worker sys w (Acquiring snapshot rest)
          end
      | _ => sys
      end
  | StatusWrite w st =>
      match worker sys w with
      | Holding h c =>
          let c' := {| ownerId := w; state := st;
                       lastHeartbeat := now sys |} in
          match ConditionalWrite (store sys) (name h) (Some c) c' with
          | Some store' =>
              {| store := store'; now := now sys;
                 workers :=
                   <[w := if active st then Holding h c' else Idle]>
                     (workers sys) |}
          | None => set_worker sys w Idle
          end
      | _ => sys
      end
  | Crash w => set_worker sys w Idle
  end.

Definition run (acts : list Action) (sys : System) : System :=
  foldl step sys acts.

(** The live claim records stored for a host. *)
Definition live_claims (sys : System) (hostName : string) : list Claim :=
  filter (fun c => live T_stale (now sys) c)
    (option_list (store sys !! hostName)).

(** What the protocol keeps true of every worker. *)
Definition worker_ok (sys : System) (w : string) : Prop :=
  match worker sys w with
  | Idle => True
  | Acquiring snapshot untried =>
      forall h, h ∈ untried ->
        claimable T_stale (now sys) (snapshot !! name h)
  | Holding h c =>
      ownerId c = w /\ active (state c) /\
      (stale T_stale (now sys) c \/ store sys !! name h = Some c)
  end.
End Protocol.

(** Nothing claimed, nobody started. *)
Definition init : System := {| store := ∅; now := 0; workers := ∅ |}.

(** The hosts of the inventory of the README: [app "1"] is ["app1"]. *)
Definition app (n : string) : HostEntry :=
  {| name := "app" +:+ n; address := "10.10.3.2" +:+ n; port := "22" |}.

End Claims.

(** * Properties of [ssh.go] *)

Section SSHProperties.
Import SSH.

(** Running [p] and then [f]: the calls of [p], then those of [f] after
    them. *)
Lemma exec_bind {A B} (w : World) (p : prog A) (f : A -> prog B) h :
  exec w h (bind p f) =
  let '(t1, a) := exec w h p in
  let '(t2, b) := exec w (h ++ t1) (f a) in
  (t1 ++ t2, b).
Proof.
  revert h. induction p as [a|X e k IH]; intros h; simpl.
  - rewrite app_nil_r. by destruct (exec w h (f a)).
  - rewrite IH. destruct (exec w _ (k _)) as [t1 a].
    rewrite <- app_assoc. simpl. by destruct (exec w _ (f a)).
Qed.

(** Every run of [PublicKeyFile] is one of the three of
    [keyfile_calls]. *)
Lemma exec_PublicKeyFile (w : World) h file :
  keyfile_calls file (calls w h (PublicKeyFile file))
    (returns w h (PublicKeyFile file)).
Proof.
  unfold calls, returns, PublicKeyFile. cbn.
  destruct (w h _ (ReadFile file)) as [buffer|e]; cbn; [|constructor].
  destruct (w _ _ (ParsePrivateKey buffer)) as [key|e]; cbn; constructor.
Qed.

(** Calls without an answer: replace the environment's [unit] answer by
    [tt]. *)
Ltac units :=
  repeat match goal with
  | |- context [?w ?h unit ?e] =>
      is_var w;
      let u := fresh "u" in
      generalize (w h unit e); intros u; destruct u
  end.

(** Every run of the loop is one of [loop_calls]. *)
Lemma exec_setenv_loop (w : World) session entries h :
  loop_calls session entries (calls w h (setenv_loop session entries))
    (returns w h (setenv_loop session entries)).
Proof.
  unfold calls, returns. revert h.
  induction entries as [|[envName envValue] rest IH]; intros h; cbn.
  - constructor.
  - units.
    destruct (w _ _ (Setenv session envName envValue)) as [err|]; cbn.
    + constructor.
    + specialize (IH ((h ++
        [Entry (LogInfo "Setting environment value %s = %s"
                  [ArgString envName; ArgString envValue]) tt])
        ++ [Entry (Setenv session envName envValue) None])).
      destruct (exec w _ (setenv_loop session rest)) as [t r]. cbn in *.
      by constructor.
Qed.

Lemma outcome_eq w user pk host port cmd env t r t' r' :
  outcome w user pk host port cmd env t r -> t = t' -> r = r' ->
  outcome w user pk host port cmd env t' r'.
Proof. by intros ? <- <-. Qed.

(** Case analysis on the answer the environment gives to the call the
    program is waiting for. *)
Ltac answer w :=
  match goal with
  | |- context [match w ?h ?X ?e with _ => _ end] =>
      let x := fresh "x" in
      generalize (w h X e); intros x; destruct x
  end.

(** The run ended inside the session, in the way [shape] describes. *)
Ltac ended_in_session shape :=
  eapply outcome_eq;
    [eapply session_used; [done..|shape] | | done];
  unfold opening; simpl; rewrite <- ?app_assoc; reflexivity.

(** Every run of [RemoteSSHCommand] has one of the shapes of
    [outcome]. *)
Lemma RemoteSSHCommand_outcome w h user pk host port cmd env :
  outcome w user pk host port cmd env
    (calls w h (RemoteSSHCommand user pk host port cmd env))
    (returns w h (RemoteSSHCommand user pk host port cmd env)).
Proof.
  unfold calls, returns, RemoteSSHCommand.
  destruct (Nat.eqb_spec (String.length pk) 0) as [Hk|Hk].
  { cbn. by constructor. }
  cbn -[PublicKeyFile setenv_loop]. units.
  unfold mbind, prog_bind. rewrite exec_bind.
  match goal with
  | |- context [exec w ?H (PublicKeyFile pk)] =>
      pose proof (exec_PublicKeyFile w H pk) as Hkey;
      unfold calls, returns in Hkey;
      destruct (exec w H (PublicKeyFile pk)) as [keyt auth]; cbn in Hkey
  end.
  cbn -[setenv_loop].
  answer w; cbn -[setenv_loop].
  2: { eapply outcome_eq; [by eapply dial_failed|done..]. }
  answer w; cbn -[setenv_loop].
  2: { eapply outcome_eq; [by eapply session_failed| |done].
       unfold opening. simpl. by rewrite <- app_assoc. }
  answer w; cbn -[setenv_loop]; units.
  { ended_in_session ltac:(eapply pty_refused). }
  answer w; cbn -[setenv_loop]; units.
  2: { ended_in_session ltac:(eapply stdin_failed). }
  answer w; cbn -[setenv_loop]; units.
  2: { ended_in_session ltac:(eapply stdout_failed). }
  answer w; cbn -[setenv_loop]; units.
  2: { ended_in_session ltac:(eapply stderr_failed). }
  match goal with
  | |- context [exec w ?H (bind (bind (setenv_loop ?s ?en) _) _)] =>
      rewrite !exec_bind;
      pose proof (exec_setenv_loop w s en H) as Hloop;
      unfold calls, returns in Hloop;
      destruct (exec w H (setenv_loop s en)) as [lt l]; cbn in Hloop
  end.
  destruct l as [err|]; cbn; units.
  { ended_in_session ltac:(eapply setenv_refused; [reflexivity|done]). }
  answer w; cbn; units.
  - ended_in_session
      ltac:(eapply command_run with (r := Some e); [reflexivity|done]).
  - ended_in_session
      ltac:(eapply command_run with (r := None); [reflexivity|done]).
Qed.

(** What the calls of the loop are: nothing but log lines and
    [Setenv]. *)
Lemma loop_calls_views session entries t r :
  loop_calls session entries t r ->
  omap dial_of t = [] /\ omap newsession_of t = [] /\ omap pty_of t = [] /\
  omap run_of t = [] /\ omap readfile_of t = [] /\ omap parse_of t = [] /\
  omap gocopy_of t = [] /\
  before is_Run t = t /\ before is_Dial t = t /\ before is_RequestPty t = t /\
  from is_Run t = [].
Proof.
  induction 1 as [| |k v rest t r _ IH]; cbn; [repeat split..|].
  destruct IH as (?&?&?&?&?&?&?&?&?&?&?). repeat split; congruence.
Qed.

(** A loop that falls through has set every entry, in order. *)
Lemma loop_calls_done session entries t r :
  loop_calls session entries t r -> r = None ->
  omap setenv_of t = env_set session None <$> entries.
Proof.
  induction 1 as [| |k v rest t r _ IH]; intros Hr; [done|done|].
  cbn. by rewrite IH.
Qed.

(** A loop that returns has set the entries before the one that
    failed, and returns the error of that one. *)
Lemma loop_calls_failed session entries t err :
  loop_calls session entries t (Some err) ->
  exists done k v e rest,
    entries = done ++ (k, v) :: rest /\
    omap setenv_of t =
      (env_set session None <$> done) ++ [(session, k, v, Some e)] /\
    err = Errorf setenv_failed [ArgString k; ArgString v; ArgError e].
Proof.
  intros H. remember (Some err) as r eqn:Hr.
  induction H as [|k v rest e|k v rest t r _ IH]; [done| |].
  - injection Hr as <-. by exists [], k, v, e, rest.
  - destruct (IH Hr) as (done & k' & v' & e & rest' & -> & Hs & ->).
    exists ((k, v) :: done), k', v', e, rest'. cbn. by rewrite Hs.
Qed.

(** The calls of [PublicKeyFile] are none of the calls below. *)
Lemma keyfile_calls_views file t auth :
  keyfile_calls file t auth ->
  omap dial_of t = [] /\ omap newsession_of t = [] /\ omap pty_of t = [] /\
  omap run_of t = [] /\ omap setenv_of t = [] /\ omap gocopy_of t = [] /\
  before is_Run t = t /\ before is_Dial t = t /\ before is_RequestPty t = t /\
  from is_Run t = [].
Proof. by destruct 1. Qed.

Lemma before_app P l1 l2 :
  before P l1 = l1 -> before P (l1 ++ l2) = l1 ++ before P l2.
Proof.
  induction l1 as [|en l1 IH]; cbn; [done|].
  destruct (P en); [done|]. intros [= H]. by rewrite IH.
Qed.

Lemma from_app P l1 l2 :
  before P l1 = l1 -> from P (l1 ++ l2) = from P l2.
Proof.
  induction l1 as [|en l1 IH]; cbn; [done|].
  destruct (P en); [done|]. intros [= H]. by rewrite IH.
Qed.

(** Bring in what is known of the calls of the key file and of the
    loop. *)
Ltac known :=
  repeat match goal with
  | H : keyfile_calls _ _ _ |- _ =>
      apply keyfile_calls_views in H; destruct H as (?&?&?&?&?&?&?&?&?&?)
  | H : loop_calls _ _ _ _ |- _ =>
      let F := fresh in
      pose proof (loop_calls_views _ _ _ _ H) as F;
      destruct F as (?&?&?&?&?&?&?&?&?&?&?);
      first [ apply loop_calls_failed in H;
              destruct H as (?&?&?&?&?&?&?&?)
            | apply loop_calls_done in H; [|done] ]
  end.

(** Compute the views of a trace whose shape is known. *)
Ltac views :=
  unfold opening, piped, pty_request;
  repeat first
    [ progress cbn
    | rewrite <- app_assoc
    | rewrite omap_app
    | rewrite before_app by done
    | rewrite from_app by done
    | match goal with
      | H : omap _ _ = _ |- _ => rewrite H
      | H : before _ _ = _ |- _ => rewrite H
      | H : from _ _ = _ |- _ => rewrite H
      end ].

Lemma elem_of_env_set session rr (l : list (string * string)) s k v res :
  (s, k, v, res) ∈ env_set session rr <$> l <->
  s = session /\ res = rr /\ (k, v) ∈ l.
Proof.
  rewrite list_elem_of_fmap. unfold env_set. split.
  - intros ([k' v'] & [= -> -> -> ->] & Hin). done.
  - intros (-> & -> & Hin). by exists (k, v).
Qed.

Lemma elem_of_range (w : World) h (m : gmap string string) k v :
  range_ok w -> (k, v) ∈ w h _ (MapRange m) <-> m !! k = Some v.
Proof. intros Hw. by rewrite (Hw h m), elem_of_map_to_list. Qed.

(** Membership in a list that has been computed. *)
Ltac members :=
  repeat match goal with
  | H : _ ∈ [] |- _ => by apply elem_of_nil in H
  | H : _ ∈ env_set _ _ <$> _ |- _ =>
      apply elem_of_env_set in H; destruct H as (?&?&H)
  | H : _ ∈ _ :: _ |- _ => apply elem_of_cons in H; destruct H as [H|H]
  | H : _ ∈ _ ++ _ |- _ => apply elem_of_app in H; destruct H as [H|H]
  | H : (_, _) = (_, _) |- _ => injection H as ? ?
  | H : Err _ = Err _ |- _ => injection H as ?
  | H : Ok _ = Ok _ |- _ => injection H as ?
  | H : Some _ = Some _ |- _ => injection H as ?
  | H : Err _ = Ok _ |- _ => discriminate H
  | H : Ok _ = Err _ |- _ => discriminate H
  | H : Some _ = None |- _ => discriminate H
  | H : None = Some _ |- _ => discriminate H
  end; subst.

Section RemoteSSHCommand.
Variables (w : World) (h : trace).
Variables (user privateKey host port cmd : string).
Variable envVars : gmap string string.

(** The call under study. *)
Local Abbreviation the_call :=
  (RemoteSSHCommand user privateKey host port cmd envVars).

(** By cases on the shape of its run. *)
Ltac outcomes :=
  destruct (RemoteSSHCommand_outcome w h user privateKey host port cmd envVars)
    as [Hk|keyt auth e Hk Hkey|keyt auth c e Hk Hkey
       |keyt auth c s t' r' Hk Hkey Hs].

(** C2: with an empty [privateKey] the call makes no call at all, so
    no connection is attempted, and returns the error for that host. *)
Theorem missing_private_key_fails_at_once :
  String.length privateKey = 0%nat ->
  calls w h the_call = [] /\
  returns w h the_call =
    Some (Errorf "Could not find PrivateKey for entry %s" [ArgString host]).
Proof.
  intros Hk. unfold calls, returns, RemoteSSHCommand.
  by rewrite Hk.
Qed.

(** C6: when the dial fails, or the session cannot be created, the
    call returns the error that wraps the failure, and [Run] is never
    called. *)
Theorem failed_open_is_returned_and_nothing_runs :
  (forall n a c e, (n, a, c, Err e) ∈ omap dial_of (calls w h the_call) ->
     returns w h the_call = Some (Errorf "Failed to dial: %s" [ArgError e]) /\
     omap run_of (calls w h the_call) = []) /\
  (forall c e, (c, Err e) ∈ omap newsession_of (calls w h the_call) ->
     returns w h the_call =
       Some (Errorf "Failed to create session: %s" [ArgError e]) /\
     omap run_of (calls w h the_call) = []).
Proof.
  outcomes;
    try destruct Hs; known; views; split; intros; members; done.
Qed.

(** C3, as amended: a call that has a private key dials once, over
    ["tcp"], to the host and port it was given, and the configuration
    it dials with has [User] and [Auth] set and a zero [Timeout]: no
    connect timeout is set. *)
Theorem dial_sets_no_connect_timeout :
  String.length privateKey <> 0%nat ->
  exists auth res,
    omap dial_of (calls w h the_call) =
      [("tcp", JoinHostPort host port,
        Some {| User := user; Auth := [auth]; Timeout := 0 |}, res)].
Proof.
  intros Hne.
  outcomes;
    [done|..]; try destruct Hs; known; views; eauto.
Qed.

(** C5: a call that reaches [Run] calls it once, with [cmd]; after
    [Run] has answered the call only closes the session, and it
    returns nil when [Run] answered nil and otherwise the error that
    wraps the answer of [Run]. *)
Theorem run_answer_decides_the_result :
  forall s c rr, (s, c, rr) ∈ omap run_of (calls w h the_call) ->
    c = cmd /\
    omap run_of (calls w h the_call) = [(s, cmd, rr)] /\
    from is_Run (calls w h the_call) =
      [Entry (Run s cmd) rr; Entry (Close s) tt] /\
    returns w h the_call = match rr with
        | Some err =>
            Some (Errorf ("Failed to run command: " +:+ cmd +:+ ": %v")
                    [ArgError err])
        | None => None
        end.
Proof.
  outcomes;
    try destruct Hs; known; views; intros; members; done.
Qed.

(** C9: if a [Setenv] fails, the call returns the error that wraps
    the failure and [Run] is never called; and when [Run] is called,
    every entry of [envVars] has been set before it, without error. *)
Theorem setenv_failure_stops_before_run :
  (forall s k v e, (s, k, v, Some e) ∈ omap setenv_of (calls w h the_call) ->
     returns w h the_call =
       Some (Errorf setenv_failed [ArgString k; ArgString v; ArgError e]) /\
     omap run_of (calls w h the_call) = []) /\
  (range_ok w -> omap run_of (calls w h the_call) <> [] ->
     (forall s k v res,
        (s, k, v, res) ∈ omap setenv_of (calls w h the_call) -> res = None) /\
     forall k v, envVars !! k = Some v ->
       exists s,
         (s, k, v, None) ∈ omap setenv_of (before is_Run (calls w h the_call))).
Proof.
  outcomes;
    try destruct Hs; known; views; (split; [intros|intros Hw Hr; try done]);
    members; try done.
  rewrite app_nil_r. split.
  - intros s0 k v res Hin. by apply elem_of_env_set in Hin as (_ & -> & _).
  - intros k v Hkv. exists s. apply elem_of_env_set.
    by rewrite elem_of_range.
Qed.

(** C4, as amended: when the command is run, the call has dialled the
    given host and port over ["tcp"] with the given user and the auth
    method made from the key file [privateKey], and the variables set
    on the session are the pairs of [envVars], each once and all
    before [Run]; nothing else is set. *)
Theorem run_follows_exactly_envVars :
  range_ok w -> omap run_of (calls w h the_call) <> [] ->
  exists keyt auth connection session entries,
    keyfile_calls privateKey keyt auth /\
    before is_Dial (calls w h the_call) =
      Entry (LogInfo "Connecting to host over SSH on host %s and port %d with user %s with command `%s`"
               [ArgString host; ArgString port; ArgString user; ArgString cmd]) tt
      :: keyt /\
    omap dial_of (calls w h the_call) =
      [("tcp", JoinHostPort host port,
        Some {| User := user; Auth := [auth]; Timeout := 0 |},
        Ok connection)] /\
    omap newsession_of (calls w h the_call) = [(connection, Ok session)] /\
    entries ≡ₚ map_to_list envVars /\
    omap setenv_of (calls w h the_call) = env_set session None <$> entries /\
    omap setenv_of (before is_Run (calls w h the_call)) =
      omap setenv_of (calls w h the_call).
Proof.
  intros Hw.
  outcomes;
    try destruct Hs as [| | | |? ? ? h' entries ? ? Hen Hloop
                            |? ? ? h' entries ? ? Hen Hloop].
  1-8: known; views; done.
  intros _. exists keyt, auth, c, s, entries.
  split; [done|]. known. views.
  rewrite !app_nil_r, Hen. repeat split; first [done|apply Hw].
Qed.

(** C10, as amended: a call that has a session asks once for a
    pseudo-terminal, with the arguments ["xterm"], 80 and 40 (that is
    80 rows by 40 columns) and the two speed modes; no variable is set
    and nothing is run before that; and if the request is refused the
    call returns the error that wraps the refusal, and neither sets a
    variable nor runs the command. *)
Theorem pty_is_requested_first :
  forall c s, (c, Ok s) ∈ omap newsession_of (calls w h the_call) ->
    exists res,
      omap pty_of (calls w h the_call) =
        [(s, "xterm", 80, 40,
          {[ TTY_OP_ISPEED := 14400; TTY_OP_OSPEED := 14400 ]}, res)] /\
      omap setenv_of (before is_RequestPty (calls w h the_call)) = [] /\
      omap run_of (before is_RequestPty (calls w h the_call)) = [] /\
      forall e, res = Some e ->
        returns w h the_call =
          Some (Errorf "Request for pseudo terminal failed: %s" [ArgError e]) /\
        omap run_of (calls w h the_call) = [] /\ omap setenv_of (calls w h the_call) = [].
Proof.
  outcomes;
    try destruct Hs; known; views; intros; members;
    eexists; (split; [reflexivity|]); repeat split; intros; members; done.
Qed.

(** The three copies are started, in the order stdin, stdout, stderr,
    before the command is run. *)
Lemma copies_started_before_run :
  forall s c rr, (s, c, rr) ∈ omap run_of (calls w h the_call) ->
    exists stdin stdout stderr,
      omap gocopy_of (before is_Run (calls w h the_call)) =
        [(OfPipe stdin, os_Stdin); (os_Stdout, OfPipe stdout);
         (os_Stderr, OfPipe stderr)].
Proof.
  outcomes;
    try destruct Hs; known; views; intros; members; eauto.
Qed.
End RemoteSSHCommand.

(** ** The properties at concrete calls *)

Lemma scripted_range_ok a : range_ok (scripted a).
Proof. intros h m. reflexivity. Defined.

Lemma missing_private_key_fails_at_once_witness :
  String.length "" = 0%nat /\
  calls (scripted all_succeed) []
    (RemoteSSHCommand "vagrant" "" "app1" "22" "run.sh" ∅) = [] /\
  returns (scripted all_succeed) []
    (RemoteSSHCommand "vagrant" "" "app1" "22" "run.sh" ∅) =
  Some (Errorf "Could not find PrivateKey for entry %s" [ArgString "app1"]).
Proof.
  split; [reflexivity|].
  apply missing_private_key_fails_at_once. reflexivity.
Defined.

(** C3, as stated, fails: the one dial of this call carries a
    configuration whose [Timeout] is zero. *)
Lemma dial_carries_no_timeout :
  ~ connect_timeout_set
      (calls (scripted all_succeed) []
         (RemoteSSHCommand "vagrant" "key" "app1" "22" "run.sh" ∅)).
Proof.
  intros H.
  destruct (H "tcp" (JoinHostPort "app1" "22")
              (Some {| User := "vagrant";
                       Auth := [Some (PublicKeys (SignerHandle 0))];
                       Timeout := 0 |})
              (Ok (ClientHandle 0))) as (cfg & [= <-] & Hlt).
  - vm_compute. apply list_elem_of_here.
  - cbn in Hlt. lia.
Qed.

Lemma dial_sets_no_connect_timeout_witness :
  String.length "key" <> 0%nat /\
  exists auth res,
    omap dial_of
      (calls (scripted all_succeed) []
         (RemoteSSHCommand "vagrant" "key" "app1" "22" "run.sh" ∅)) =
    [("tcp", JoinHostPort "app1" "22",
      Some {| User := "vagrant"; Auth := [auth]; Timeout := 0 |}, res)].
Proof.
  split; [discriminate|].
  apply dial_sets_no_connect_timeout. discriminate.
Defined.

(** C4, as stated, fails: the command is run after [LANG=C], the one
    pair of [envVars], has been set and nothing else. *)
Lemma only_envVars_are_injected :
  ~ injects_env_and_identity {[ "LANG" := "C" ]}
      (calls (scripted all_succeed) []
         (RemoteSSHCommand "vagrant" "key" "app1" "22" "run.sh"
            {[ "LANG" := "C" ]})).
Proof.
  intros H. destruct H as (_ & s & k & v & Hin & Hne).
  - vm_compute. discriminate.
  - assert (E : omap setenv_of (before is_Run
        (calls (scripted all_succeed) []
           (RemoteSSHCommand "vagrant" "key" "app1" "22" "run.sh"
              {[ "LANG" := "C" ]}))) = [(SessionHandle 0, "LANG", "C", None)])
      by (vm_compute; reflexivity).
    rewrite E in Hin. apply list_elem_of_singleton in Hin.
    injection Hin as -> -> ->. apply Hne. apply lookup_singleton_eq.
Qed.

Lemma run_follows_exactly_envVars_witness :
  range_ok (scripted all_succeed) /\
  omap run_of
    (calls (scripted all_succeed) []
       (RemoteSSHCommand "vagrant" "key" "app1" "22" "run.sh"
          {[ "LANG" := "C" ]})) <> [] /\
  exists keyt auth connection session entries,
    keyfile_calls "key" keyt auth /\
    before is_Dial
      (calls (scripted all_succeed) []
         (RemoteSSHCommand "vagrant" "key" "app1" "22" "run.sh"
            {[ "LANG" := "C" ]})) =
      Entry (LogInfo "Connecting to host over SSH on host %s and port %d with user %s with command `%s`"
               [ArgString "app1"; ArgString "22"; ArgString "vagrant";
                ArgString "run.sh"]) tt
      :: keyt /\
    omap dial_of
      (calls (scripted all_succeed) []
         (RemoteSSHCommand "vagrant" "key" "app1" "22" "run.sh"
            {[ "LANG" := "C" ]})) =
      [("tcp", JoinHostPort "app1" "22",
        Some {| User := "vagrant"; Auth := [auth]; Timeout := 0 |},
        Ok connection)] /\
    omap newsession_of
      (calls (scripted all_succeed) []
         (RemoteSSHCommand "vagrant" "key" "app1" "22" "run.sh"
            {[ "LANG" := "C" ]})) = [(connection, Ok session)] /\
    entries ≡ₚ map_to_list ({[ "LANG" := "C" ]} : gmap string string) /\
    omap setenv_of
      (calls (scripted all_succeed) []
         (RemoteSSHCommand "vagrant" "key" "app1" "22" "run.sh"
            {[ "LANG" := "C" ]})) = env_set session None <$> entries /\
    omap setenv_of (before is_Run
      (calls (scripted all_succeed) []
         (RemoteSSHCommand "vagrant" "key" "app1" "22" "run.sh"
            {[ "LANG" := "C" ]}))) =
    omap setenv_of
      (calls (scripted all_succeed) []
         (RemoteSSHCommand "vagrant" "key" "app1" "22" "run.sh"
            {[ "LANG" := "C" ]})).
Proof.
  assert (Hrun : omap run_of
    (calls (scripted all_succeed) []
       (RemoteSSHCommand "vagrant" "key" "app1" "22" "run.sh"
          {[ "LANG" := "C" ]})) <> []) by (vm_compute; discriminate).
  split; [apply scripted_range_ok|]. split; [exact Hrun|].
  apply run_follows_exactly_envVars; [apply scripted_range_ok|exact Hrun].
Defined.

Lemma run_answer_decides_the_result_witness :
  (SessionHandle 0, "run.sh", Some (LibError "Process exited with status 3"))
    ∈ omap run_of
        (calls (scripted exits_with_status_3) []
           (RemoteSSHCommand "vagrant" "key" "app1" "22" "run.sh" ∅)) /\
  "run.sh" = "run.sh" /\
  omap run_of
    (calls (scripted exits_with_status_3) []
       (RemoteSSHCommand "vagrant" "key" "app1" "22" "run.sh" ∅)) =
    [(SessionHandle 0, "run.sh",
      Some (LibError "Process exited with status 3"))] /\
  from is_Run
    (calls (scripted exits_with_status_3) []
       (RemoteSSHCommand "vagrant" "key" "app1" "22" "run.sh" ∅)) =
    [Entry (Run (SessionHandle 0) "run.sh")
       (Some (LibError "Process exited with status 3"));
     Entry (Close (SessionHandle 0)) tt] /\
  returns (scripted exits_with_status_3) []
    (RemoteSSHCommand "vagrant" "key" "app1" "22" "run.sh" ∅) =
    Some (Errorf "Failed to run command: run.sh: %v"
            [ArgError (LibError "Process exited with status 3")]).
Proof.
  assert (Hin :
    (SessionHandle 0, "run.sh", Some (LibError "Process exited with status 3"))
      ∈ omap run_of
          (calls (scripted exits_with_status_3) []
             (RemoteSSHCommand "vagrant" "key" "app1" "22" "run.sh" ∅)))
    by (vm_compute; apply list_elem_of_here).
  split; [exact Hin|].
  exact (run_answer_decides_the_result (scripted exits_with_status_3) []
           "vagrant" "key" "app1" "22" "run.sh" ∅ _ _ _ Hin).
Defined.

Lemma failed_open_is_returned_and_nothing_runs_witness :
  ("tcp", JoinHostPort "app1" "22",
   Some {| User := "vagrant"; Auth := [Some (PublicKeys (SignerHandle 0))];
           Timeout := 0 |},
   Err (LibError "dial tcp: connection refused"))
    ∈ omap dial_of
        (calls (scripted dial_refused) []
           (RemoteSSHCommand "vagrant" "key" "app1" "22" "run.sh" ∅)) /\
  returns (scripted dial_refused) []
    (RemoteSSHCommand "vagrant" "key" "app1" "22" "run.sh" ∅) =
    Some (Errorf "Failed to dial: %s"
            [ArgError (LibError "dial tcp: connection refused")]) /\
  omap run_of
    (calls (scripted dial_refused) []
       (RemoteSSHCommand "vagrant" "key" "app1" "22" "run.sh" ∅)) = [].
Proof.
  assert (Hin :
    ("tcp", JoinHostPort "app1" "22",
     Some {| User := "vagrant"; Auth := [Some (PublicKeys (SignerHandle 0))];
             Timeout := 0 |},
     Err (LibError "dial tcp: connection refused"))
      ∈ omap dial_of
          (calls (scripted dial_refused) []
             (RemoteSSHCommand "vagrant" "key" "app1" "22" "run.sh" ∅)))
    by (vm_compute; apply list_elem_of_here).
  split; [exact Hin|].
  exact (proj1 (failed_open_is_returned_and_nothing_runs (scripted dial_refused) []
           "vagrant" "key" "app1" "22" "run.sh" ∅) _ _ _ _ Hin).
Defined.

Lemma setenv_failure_stops_before_run_witness :
  ((SessionHandle 0, "LANG", "C", Some (LibError "ssh: setenv failed"))
     ∈ omap setenv_of
         (calls (scripted setenv_rejected) []
            (RemoteSSHCommand "vagrant" "key" "app1" "22" "run.sh"
               {[ "LANG" := "C" ]})) /\
   returns (scripted setenv_rejected) []
     (RemoteSSHCommand "vagrant" "key" "app1" "22" "run.sh"
        {[ "LANG" := "C" ]}) =
     Some (Errorf setenv_failed
             [ArgString "LANG"; ArgString "C";
              ArgError (LibError "ssh: setenv failed")]) /\
   omap run_of
     (calls (scripted setenv_rejected) []
        (RemoteSSHCommand "vagrant" "key" "app1" "22" "run.sh"
           {[ "LANG" := "C" ]})) = []) /\
  (range_ok (scripted all_succeed) /\
   omap run_of
     (calls (scripted all_succeed) []
        (RemoteSSHCommand "vagrant" "key" "app1" "22" "run.sh"
           {[ "LANG" := "C" ]})) <> [] /\
   ({[ "LANG" := "C" ]} : gmap string string) !! "LANG" = Some "C" /\
   exists s,
     (s, "LANG", "C", None)
       ∈ omap setenv_of (before is_Run
           (calls (scripted all_succeed) []
              (RemoteSSHCommand "vagrant" "key" "app1" "22" "run.sh"
                 {[ "LANG" := "C" ]})))).
Proof.
  assert (Hin :
    (SessionHandle 0, "LANG", "C", Some (LibError "ssh: setenv failed"))
      ∈ omap setenv_of
          (calls (scripted setenv_rejected) []
             (RemoteSSHCommand "vagrant" "key" "app1" "22" "run.sh"
                {[ "LANG" := "C" ]})))
    by (vm_compute; apply list_elem_of_here).
  assert (Hrun : omap run_of
    (calls (scripted all_succeed) []
       (RemoteSSHCommand "vagrant" "key" "app1" "22" "run.sh"
          {[ "LANG" := "C" ]})) <> []) by (vm_compute; discriminate).
  assert (Hlang : ({[ "LANG" := "C" ]} : gmap string string) !! "LANG"
                  = Some "C") by apply lookup_singleton_eq.
  split.
  - split; [exact Hin|].
    exact (proj1 (setenv_failure_stops_before_run (scripted setenv_rejected) []
             "vagrant" "key" "app1" "22" "run.sh" {[ "LANG" := "C" ]})
             _ _ _ _ Hin).
  - split; [apply scripted_range_ok|]. split; [exact Hrun|].
    split; [exact Hlang|].
    exact (proj2 (proj2 (setenv_failure_stops_before_run
             (scripted all_succeed) []
             "vagrant" "key" "app1" "22" "run.sh" {[ "LANG" := "C" ]})
             (scripted_range_ok all_succeed) Hrun) "LANG" "C" Hlang).
Defined.

(** C10, as stated, fails: the request of this call has [h = 80] and
    [w = 40], that is 80 rows by 40 columns. *)
Lemma pty_is_80_rows_by_40_columns :
  ~ pty_80_columns_40_rows
      (calls (scripted all_succeed) []
         (RemoteSSHCommand "vagrant" "key" "app1" "22" "run.sh" ∅)).
Proof.
  intros H.
  destruct (H (SessionHandle 0) "xterm" 80 40
              {[ TTY_OP_ISPEED := 14400; TTY_OP_OSPEED := 14400 ]} None)
    as (_ & Hw & _).
  - vm_compute. apply list_elem_of_here.
  - discriminate Hw.
Qed.

Lemma pty_is_requested_first_witness :
  (ClientHandle 0, Ok (SessionHandle 0))
    ∈ omap newsession_of
        (calls (scripted pty_rejected) []
           (RemoteSSHCommand "vagrant" "key" "app1" "22" "run.sh"
              {[ "LANG" := "C" ]})) /\
  exists res,
    omap pty_of
      (calls (scripted pty_rejected) []
         (RemoteSSHCommand "vagrant" "key" "app1" "22" "run.sh"
            {[ "LANG" := "C" ]})) =
      [(SessionHandle 0, "xterm", 80, 40,
        {[ TTY_OP_ISPEED := 14400; TTY_OP_OSPEED := 14400 ]}, res)] /\
    omap setenv_of (before is_RequestPty
      (calls (scripted pty_rejected) []
         (RemoteSSHCommand "vagrant" "key" "app1" "22" "run.sh"
            {[ "LANG" := "C" ]}))) = [] /\
    omap run_of (before is_RequestPty
      (calls (scripted pty_rejected) []
         (RemoteSSHCommand "vagrant" "key" "app1" "22" "run.sh"
            {[ "LANG" := "C" ]}))) = [] /\
    forall e, res = Some e ->
      returns (scripted pty_rejected) []
        (RemoteSSHCommand "vagrant" "key" "app1" "22" "run.sh"
           {[ "LANG" := "C" ]}) =
        Some (Errorf "Request for pseudo terminal failed: %s" [ArgError e]) /\
      omap run_of
        (calls (scripted pty_rejected) []
           (RemoteSSHCommand "vagrant" "key" "app1" "22" "run.sh"
              {[ "LANG" := "C" ]})) = [] /\
      omap setenv_of
        (calls (scripted pty_rejected) []
           (RemoteSSHCommand "vagrant" "key" "app1" "22" "run.sh"
              {[ "LANG" := "C" ]})) = [].
Proof.
  assert (Hin :
    (ClientHandle 0, Ok (SessionHandle 0))
      ∈ omap newsession_of
          (calls (scripted pty_rejected) []
             (RemoteSSHCommand "vagrant" "key" "app1" "22" "run.sh"
                {[ "LANG" := "C" ]})))
    by (vm_compute; apply list_elem_of_here).
  split; [exact Hin|].
  exact (pty_is_requested_first (scripted pty_rejected) []
           "vagrant" "key" "app1" "22" "run.sh" {[ "LANG" := "C" ]} _ _ Hin).
Defined.

(** ** More of [RemoteSSHCommand] and [PublicKeyFile] *)

(** The calls of [PublicKeyFile] and of the loop, under the readings
    above. *)
Lemma keyfile_calls_more file t auth :
  keyfile_calls file t auth ->
  omap close_of t = [] /\ omap pipe_of t = [] /\ omap range_of t = [] /\
  omap session_of t = [] /\ omap setenv_log_of t = [] /\
  omap failure_of t = [] /\
  before is_Close t = t /\ from is_Close t = [] /\
  before is_failure t = t /\ from is_failure t = [].
Proof. by destruct 1. Qed.

Lemma loop_calls_more session entries t r :
  loop_calls session entries t r ->
  omap close_of t = [] /\ omap pipe_of t = [] /\ omap range_of t = [] /\
  before is_Close t = t /\ from is_Close t = [] /\
  omap setenv_log_of t = setenv_pair <$> omap setenv_of t /\
  (forall s, s ∈ omap session_of t -> s = session).
Proof.
  induction 1 as [| |k v rest t r _ IH]; cbn.
  - repeat split. intros s Hs. by apply elem_of_nil in Hs.
  - repeat split. intros s Hs. by apply list_elem_of_singleton in Hs.
  - destruct IH as (?&?&?&?&?&Hlog&IH). repeat split; try congruence.
    + by rewrite Hlog.
    + intros s [->|Hs]%elem_of_cons; [done|by apply IH].
Qed.

Lemma loop_calls_failure session entries t r :
  loop_calls session entries t r ->
  match r with
  | None =>
      omap failure_of t = [] /\ before is_failure t = t /\
      from is_failure t = []
  | Some err =>
      exists k v e,
        err = Errorf setenv_failed [ArgString k; ArgString v; ArgError e] /\
        omap failure_of t = [e] /\
        from is_failure t = [Entry (Setenv session k v) (Some e)]
  end.
Proof.
  induction 1 as [|k v rest e|k v rest t r _ IH]; cbn; [done| |].
  - by exists k, v, e.
  - destruct r as [err|]; [done|].
    destruct IH as (?&?&?). repeat split; congruence.
Qed.

Lemma from_app_found P l1 l2 x l :
  from P l1 = x :: l -> from P (l1 ++ l2) = x :: l ++ l2.
Proof.
  induction l1 as [|en l1 IH]; cbn; [done|].
  destruct (P en); [|done]. by intros [= -> ->].
Qed.


(** Bring in the facts above, then those of [known]. *)
Ltac more :=
  try match goal with
  | H : keyfile_calls _ _ _ |- _ =>
      let F := fresh in
      pose proof (keyfile_calls_more _ _ _ H) as F;
      destruct F as (?&?&?&?&?&?&?&?&?&?)
  end;
  try match goal with
  | H : loop_calls _ _ _ _ |- _ =>
      let F := fresh in
      pose proof (loop_calls_more _ _ _ _ H) as F;
      destruct F as (?&?&?&?&?&?&?);
      let G := fresh in
      pose proof (loop_calls_failure _ _ _ _ H) as G; cbn in G;
      first [ destruct G as (?&?&?&?&?&?) | destruct G as (?&?&?) ]
  end;
  known.

Section MoreOfRemoteSSHCommand.
Variables (w : World) (h : trace).
Variables (user privateKey host port cmd : string).
Variable envVars : gmap string string.

(** The call under study. *)
Local Abbreviation the_call :=
  (RemoteSSHCommand user privateKey host port cmd envVars).

(** By cases on the shape of its run, down to the answer of [Run]. *)
Ltac shapes :=
  destruct (RemoteSSHCommand_outcome w h user privateKey host port cmd envVars)
    as [Hk|keyt auth e Hk Hkey|keyt auth c e Hk Hkey
       |keyt auth c s t' r' Hk Hkey Hs];
  [ | | |
    destruct Hs as [e|e|i e|i o e|i o e' h' entries lt err Hen Hloop
                   |i o e' h' entries lt rr Hen Hloop];
    [..|destruct rr as [err|]] ].

(** X1: the call closes the sessions it opened and no other: the one
    session, once, as its last call; a call that got no session closes
    nothing. *)
Theorem session_is_closed_once_at_the_end :
  omap close_of (calls w h the_call) =
    omap opened (omap newsession_of (calls w h the_call)) /\
  forall c s, (c, Ok s) ∈ omap newsession_of (calls w h the_call) ->
    from is_Close (calls w h the_call) = [Entry (Close s) tt].
Proof.
  shapes; more; views; (split; [done|]); intros; members; done.
Qed.

(** X2: when a pipe of the session cannot be set up, the call returns
    the error that names the stream and wraps the failure; it sets no
    variable, does not run the command, and closes the session. *)
Theorem pipe_failure_is_returned_and_nothing_runs :
  forall k s e, (k, s, Err e) ∈ omap pipe_of (calls w h the_call) ->
    returns w h the_call =
      Some (Errorf ("Unable to setup " +:+ std_name k +:+ " for session: %v")
              [ArgError e]) /\
    omap setenv_of (calls w h the_call) = [] /\
    omap run_of (calls w h the_call) = [] /\
    omap close_of (calls w h the_call) = [s].
Proof.
  shapes; more; views; intros; members; done.
Qed.

(** X3: the copies started are, in order, one for each pipe the call
    got, in the direction of that pipe; and none is started after the
    command was run. *)
Theorem copies_serve_the_pipes :
  omap gocopy_of (calls w h the_call) =
    omap wired (omap pipe_of (calls w h the_call)) /\
  omap gocopy_of (before is_Run (calls w h the_call)) =
    omap gocopy_of (calls w h the_call).
Proof.
  shapes; more; views; done.
Qed.

(** X5: the call returns nil exactly when it ran the command and [Run]
    answered nil. *)
Theorem nil_exactly_when_run_succeeded :
  returns w h the_call = None <->
  exists s, (s, cmd, None) ∈ omap run_of (calls w h the_call).
Proof.
  shapes; more; views; (split; [intros ?|intros (?&?)]); members;
    try done; subst; try done.
  eexists. apply list_elem_of_here.
Qed.

(** X7: every variable set on the session is logged first, name and
    value: the log lines of the loop are those of the [Setenv] calls,
    in the same order. *)
Theorem setenv_is_logged_with_its_value :
  omap setenv_log_of (calls w h the_call) =
    setenv_pair <$> omap setenv_of (calls w h the_call).
Proof.
  shapes; more; views; rewrite ?fmap_app, ?app_nil_r; done.
Qed.


(** X6: the call retries nothing: it dials, opens a session, asks for
    the pseudo-terminal, ranges over the map, runs the command and
    closes the session at most once each, reads and parses the key file
    at most once, and asks for each pipe at most once. *)
Theorem no_call_is_repeated :
  (length (omap readfile_of (calls w h the_call)) <= 1)%nat /\
  (length (omap parse_of (calls w h the_call)) <= 1)%nat /\
  (length (omap dial_of (calls w h the_call)) <= 1)%nat /\
  (length (omap newsession_of (calls w h the_call)) <= 1)%nat /\
  (length (omap pty_of (calls w h the_call)) <= 1)%nat /\
  NoDup ((fun x => x.1.1) <$> omap pipe_of (calls w h the_call)) /\
  (length (omap range_of (calls w h the_call)) <= 1)%nat /\
  (length (omap run_of (calls w h the_call)) <= 1)%nat /\
  (length (omap close_of (calls w h the_call)) <= 1)%nat.
Proof.
  shapes; try destruct Hkey; more; views;
    repeat split; try (cbn; lia);
    repeat (apply NoDup_cons_2; [intros Hin; members; done|]);
    apply NoDup_nil_2.
Qed.

(** X9: every call on a session is on the session that [NewSession]
    gave, and [NewSession] is called on the client that [Dial] gave. *)
Theorem calls_work_on_the_opened_session :
  (forall s, s ∈ omap session_of (calls w h the_call) ->
     exists c, omap newsession_of (calls w h the_call) = [(c, Ok s)]) /\
  (forall c r, (c, r) ∈ omap newsession_of (calls w h the_call) ->
     exists n a cfg,
       omap dial_of (calls w h the_call) = [(n, a, cfg, Ok c)]).
Proof.
  shapes; more; views; split; intros; members;
    repeat match goal with
    | Hs : forall s, s ∈ omap session_of _ -> s = _,
      H : _ ∈ omap session_of _ |- _ => apply Hs in H; subst
    end; eauto.
Qed.

(** X10: a key file that was read and parsed is what the dial offers:
    the one auth method of the configuration is [PublicKeys] of the
    parsed key, and the bytes parsed are those read from
    [privateKey]. *)
Theorem parsed_key_is_offered_to_the_dial :
  forall b key, (b, Ok key) ∈ omap parse_of (calls w h the_call) ->
    (privateKey, Ok b) ∈ omap readfile_of (calls w h the_call) /\
    exists res,
      omap dial_of (calls w h the_call) =
        [("tcp", JoinHostPort host port,
          Some {| User := user; Auth := [Some (PublicKeys key)];
                  Timeout := 0 |}, res)].
Proof.
  shapes; try destruct Hkey; more; views; intros; members;
    (split; [apply list_elem_of_here|eauto]).
Qed.

(** The [Setenv] calls of a run: none, when the run did not reach the
    loop; else those of the entries the range answered, up to the end or
    up to the first that fails. *)
Lemma setenv_follows_range :
  (omap range_of (calls w h the_call) = [] /\
   omap setenv_of (calls w h the_call) = []) \/
  exists h' s entries,
    entries = w h' _ (MapRange envVars) /\
    omap range_of (calls w h the_call) = [(envVars, entries)] /\
    (omap setenv_of (calls w h the_call) = env_set s None <$> entries \/
     exists done k v e rest,
       entries = done ++ (k, v) :: rest /\
       omap setenv_of (calls w h the_call) =
         (env_set s None <$> done) ++ [(s, k, v, Some e)]).
Proof.
  shapes; more; views; rewrite ?app_nil_r; first [by left|right].
  - exists h', s, entries. subst entries. repeat split. right. eauto 10.
  - exists h', s, entries. subst entries. repeat split. by left.
  - exists h', s, entries. subst entries. repeat split. by left.
Qed.

Lemma setenv_pair_env_set s r (l : list (string * string)) :
  setenv_pair <$> (env_set s r <$> l) = l.
Proof.
  induction l as [|[k v] l IH]; cbn; [done|]. by rewrite IH.
Qed.

(** X4: the variables are set in the order the range over [envVars]
    answered, and the loop stops at the first [Setenv] that fails: the
    pairs set are a prefix of the range, and only the last [Setenv] of
    a call can have failed. *)
Theorem setenv_follows_the_range_until_a_failure :
  (forall m entries, (m, entries) ∈ omap range_of (calls w h the_call) ->
     m = envVars /\
     setenv_pair <$> omap setenv_of (calls w h the_call)
       `prefix_of` entries) /\
  (forall i x, omap setenv_of (calls w h the_call) !! i = Some x ->
     (S i < length (omap setenv_of (calls w h the_call)))%nat ->
     x.2 = None).
Proof.
  destruct setenv_follows_range
    as [[-> ->]|(h' & s & entries & _ & -> &
                 [->|(done & k & v & e & rest & -> & ->)])].
  - split; intros; members. done.
  - split.
    + intros m en Hin. members. split; [done|].
      by rewrite setenv_pair_env_set.
    + intros i x Hx _. apply list_lookup_fmap_Some in Hx as (? & -> & _). done.
  - split.
    + intros m en Hin. members. split; [done|].
      rewrite fmap_app, setenv_pair_env_set. cbn.
      exists rest. by rewrite <- app_assoc.
    + intros i x Hx Hlt. rewrite length_app, length_fmap in Hlt. cbn in Hlt.
      rewrite lookup_app_l in Hx by (rewrite length_fmap; lia).
      apply list_lookup_fmap_Some in Hx as (? & -> & _). done.
Qed.

(** X11: whatever the order of the range, nothing but a pair of
    [envVars] is ever set, no name is set twice, and so there are at
    most as many [Setenv] calls as [envVars] has entries. *)
Theorem only_envVars_are_ever_set :
  range_ok w ->
  (forall s k v res, (s, k, v, res) ∈ omap setenv_of (calls w h the_call) ->
     envVars !! k = Some v) /\
  NoDup ((fun x => (setenv_pair x).1) <$>
           omap setenv_of (calls w h the_call)) /\
  (length (omap setenv_of (calls w h the_call)) <= size envVars)%nat.
Proof.
  intros Hw.
  assert (Hpre : exists rest,
    (setenv_pair <$> omap setenv_of (calls w h the_call)) ++ rest
      ≡ₚ map_to_list envVars).
  { destruct setenv_follows_range
      as [[_ ->]|(h' & s & entries & Hen & _ &
                  [->|(done & k & v & e & rest & Hd & ->)])].
    - by exists (map_to_list envVars).
    - exists []. rewrite app_nil_r, setenv_pair_env_set, Hen. apply Hw.
    - exists rest. rewrite fmap_app, setenv_pair_env_set. cbn.
      rewrite <- app_assoc. cbn. unfold setenv_pair. cbn.
      rewrite <- Hd, Hen. apply Hw. }
  destruct Hpre as (rest & Hperm).
  split; [|split].
  - intros s k v res Hin. apply elem_of_map_to_list. rewrite <- Hperm.
    apply elem_of_app. left.
    apply (list_elem_of_fmap_2 setenv_pair) in Hin. exact Hin.
  - pose proof (NoDup_fst_map_to_list envVars) as Hnd.
    rewrite <- Hperm, fmap_app in Hnd. apply NoDup_app in Hnd as (Hnd & _).
    by rewrite <- list_fmap_compose in Hnd.
  - rewrite <- length_map_to_list, <- Hperm, length_app, length_fmap. lia.
Qed.

(** X12: at most one of the calls whose error the function looks at
    fails in a run; after it the call makes no call but the closing of
    the session, and it returns an error whose last argument is that
    failure. *)
Theorem first_failure_ends_the_call :
  (length (omap failure_of (calls w h the_call)) <= 1)%nat /\
  forall e, e ∈ omap failure_of (calls w h the_call) ->
    (exists format args,
       returns w h the_call = Some (Errorf format (args ++ [ArgError e]))) /\
    exists en, failure_of en = Some e /\
      (from is_failure (calls w h the_call) = [en] \/
       exists s,
         from is_failure (calls w h the_call) = [en; Entry (Close s) tt]).
Proof.
  shapes; more; views;
    try (erewrite from_app_found by eassumption; cbn);
    (split; [cbn; lia|]); intros; members; simplify_eq.
  all: split; [first [by eexists _, [] | by eexists _, [_; _]]|].
  all: eexists; (split; [|first [by left | right; by eexists]]); done.
Qed.



End MoreOfRemoteSSHCommand.

(** X8: [PublicKeyFile] reads the file it is given, once; it parses
    only what it read; and it returns an auth method exactly when both
    succeeded, the [PublicKeys] of the parsed key. *)
Theorem PublicKeyFile_gives_the_parsed_key (w : World) h file :
  (exists rf,
     omap readfile_of (calls w h (PublicKeyFile file)) = [(file, rf)]) /\
  (forall b res, (b, res) ∈ omap parse_of (calls w h (PublicKeyFile file)) ->
     omap readfile_of (calls w h (PublicKeyFile file)) = [(file, Ok b)]) /\
  forall a,
    returns w h (PublicKeyFile file) = Some a <->
    exists b key,
      a = PublicKeys key /\
      omap parse_of (calls w h (PublicKeyFile file)) = [(b, Ok key)].
Proof.
  destruct (exec_PublicKeyFile w h file); cbn;
    (split; [eauto|split]); intros; members; try done;
    (split; [intros|intros (?&?&?&?)]); members; simplify_eq; try done;
    eauto.
Qed.

(** ** These properties at concrete calls *)

Lemma session_is_closed_once_at_the_end_witness :
  (ClientHandle 0, Ok (SessionHandle 0))
    ∈ omap newsession_of
        (calls (scripted exits_with_status_3) []
           (RemoteSSHCommand "vagrant" "key" "app1" "22" "run.sh" ∅)) /\
  from is_Close
    (calls (scripted exits_with_status_3) []
       (RemoteSSHCommand "vagrant" "key" "app1" "22" "run.sh" ∅)) =
    [Entry (Close (SessionHandle 0)) tt].
Proof.
  assert (Hin :
    (ClientHandle 0, Ok (SessionHandle 0))
      ∈ omap newsession_of
          (calls (scripted exits_with_status_3) []
             (RemoteSSHCommand "vagrant" "key" "app1" "22" "run.sh" ∅)))
    by (vm_compute; apply list_elem_of_here).
  split; [exact Hin|].
  exact (proj2 (session_is_closed_once_at_the_end
           (scripted exits_with_status_3) []
           "vagrant" "key" "app1" "22" "run.sh" ∅) _ _ Hin).
Defined.

Lemma pipe_failure_is_returned_and_nothing_runs_witness :
  (Stdout, SessionHandle 0, Err (LibError "ssh: Stdout already set"))
    ∈ omap pipe_of
        (calls stdout_pipe_fails []
           (RemoteSSHCommand "vagrant" "key" "app1" "22" "run.sh"
              {[ "LANG" := "C" ]})) /\
  returns stdout_pipe_fails []
    (RemoteSSHCommand "vagrant" "key" "app1" "22" "run.sh"
       {[ "LANG" := "C" ]}) =
    Some (Errorf "Unable to setup stdout for session: %v"
            [ArgError (LibError "ssh: Stdout already set")]) /\
  omap setenv_of
    (calls stdout_pipe_fails []
       (RemoteSSHCommand "vagrant" "key" "app1" "22" "run.sh"
          {[ "LANG" := "C" ]})) = [] /\
  omap run_of
    (calls stdout_pipe_fails []
       (RemoteSSHCommand "vagrant" "key" "app1" "22" "run.sh"
          {[ "LANG" := "C" ]})) = [] /\
  omap close_of
    (calls stdout_pipe_fails []
       (RemoteSSHCommand "vagrant" "key" "app1" "22" "run.sh"
          {[ "LANG" := "C" ]})) = [SessionHandle 0].
Proof.
  assert (Hin :
    (Stdout, SessionHandle 0, Err (LibError "ssh: Stdout already set"))
      ∈ omap pipe_of
          (calls stdout_pipe_fails []
             (RemoteSSHCommand "vagrant" "key" "app1" "22" "run.sh"
                {[ "LANG" := "C" ]})))
    by (vm_compute; apply list_elem_of_further, list_elem_of_here).
  split; [exact Hin|].
  exact (pipe_failure_is_returned_and_nothing_runs stdout_pipe_fails []
           "vagrant" "key" "app1" "22" "run.sh" {[ "LANG" := "C" ]}
           _ _ _ Hin).
Defined.

Lemma setenv_follows_the_range_until_a_failure_witness :
  (({[ "LANG" := "C" ]} : gmap string string), [("LANG", "C")])
    ∈ omap range_of
        (calls (scripted setenv_rejected) []
           (RemoteSSHCommand "vagrant" "key" "app1" "22" "run.sh"
              {[ "LANG" := "C" ]})) /\
  setenv_pair <$>
    omap setenv_of
      (calls (scripted setenv_rejected) []
         (RemoteSSHCommand "vagrant" "key" "app1" "22" "run.sh"
            {[ "LANG" := "C" ]}))
    `prefix_of` [("LANG", "C")].
Proof.
  assert (Hin :
    (({[ "LANG" := "C" ]} : gmap string string), [("LANG", "C")])
      ∈ omap range_of
          (calls (scripted setenv_rejected) []
             (RemoteSSHCommand "vagrant" "key" "app1" "22" "run.sh"
                {[ "LANG" := "C" ]})))
    by (vm_compute; apply list_elem_of_here).
  split; [exact Hin|].
  exact (proj2 (proj1 (setenv_follows_the_range_until_a_failure
           (scripted setenv_rejected) []
           "vagrant" "key" "app1" "22" "run.sh" {[ "LANG" := "C" ]})
           _ _ Hin)).
Defined.

Lemma PublicKeyFile_gives_the_parsed_key_witness :
  returns (scripted all_succeed) [] (PublicKeyFile "key") =
    Some (PublicKeys (SignerHandle 0)) /\
  exists b key,
    PublicKeys (SignerHandle 0) = PublicKeys key /\
    omap parse_of (calls (scripted all_succeed) [] (PublicKeyFile "key")) =
      [(b, Ok key)].
Proof.
  assert (Hr : returns (scripted all_succeed) [] (PublicKeyFile "key") =
               Some (PublicKeys (SignerHandle 0))) by reflexivity.
  split; [exact Hr|].
  exact (proj1 (proj2 (proj2 (PublicKeyFile_gives_the_parsed_key
           (scripted all_succeed) [] "key")) _) Hr).
Defined.

Lemma calls_work_on_the_opened_session_witness :
  SessionHandle 0
    ∈ omap session_of
        (calls (scripted all_succeed) []
           (RemoteSSHCommand "vagrant" "key" "app1" "22" "run.sh" ∅)) /\
  exists c,
    omap newsession_of
      (calls (scripted all_succeed) []
         (RemoteSSHCommand "vagrant" "key" "app1" "22" "run.sh" ∅)) =
      [(c, Ok (SessionHandle 0))].
Proof.
  assert (Hin :
    SessionHandle 0
      ∈ omap session_of
          (calls (scripted all_succeed) []
             (RemoteSSHCommand "vagrant" "key" "app1" "22" "run.sh" ∅)))
    by (vm_compute; apply list_elem_of_here).
  split; [exact Hin|].
  exact (proj1 (calls_work_on_the_opened_session (scripted all_succeed) []
           "vagrant" "key" "app1" "22" "run.sh" ∅) _ Hin).
Defined.

Lemma parsed_key_is_offered_to_the_dial_witness :
  ([], Ok (SignerHandle 0))
    ∈ omap parse_of
        (calls (scripted dial_refused) []
           (RemoteSSHCommand "vagrant" "key" "app1" "22" "run.sh" ∅)) /\
  ("key", Ok [])
    ∈ omap readfile_of
        (calls (scripted dial_refused) []
           (RemoteSSHCommand "vagrant" "key" "app1" "22" "run.sh" ∅)) /\
  exists res,
    omap dial_of
      (calls (scripted dial_refused) []
         (RemoteSSHCommand "vagrant" "key" "app1" "22" "run.sh" ∅)) =
      [("tcp", JoinHostPort "app1" "22",
        Some {| User := "vagrant";
                Auth := [Some (PublicKeys (SignerHandle 0))];
                Timeout := 0 |}, res)].
Proof.
  assert (Hin :
    ([], Ok (SignerHandle 0))
      ∈ omap parse_of
          (calls (scripted dial_refused) []
             (RemoteSSHCommand "vagrant" "key" "app1" "22" "run.sh" ∅)))
    by (vm_compute; apply list_elem_of_here).
  split; [exact Hin|].
  exact (parsed_key_is_offered_to_the_dial (scripted dial_refused) []
           "vagrant" "key" "app1" "22" "run.sh" ∅ _ _ Hin).
Defined.

Lemma only_envVars_are_ever_set_witness :
  range_ok (scripted setenv_rejected) /\
  (forall s k v res,
     (s, k, v, res)
       ∈ omap setenv_of
           (calls (scripted setenv_rejected) []
              (RemoteSSHCommand "vagrant" "key" "app1" "22" "run.sh"
                 {[ "LANG" := "C"; "TERM" := "xterm" ]})) ->
     ({[ "LANG" := "C"; "TERM" := "xterm" ]} : gmap string string) !! k
       = Some v) /\
  NoDup ((fun x => (setenv_pair x).1) <$>
    omap setenv_of
      (calls (scripted setenv_rejected) []
         (RemoteSSHCommand "vagrant" "key" "app1" "22" "run.sh"
            {[ "LANG" := "C"; "TERM" := "xterm" ]}))) /\
  (length
     (omap setenv_of
        (calls (scripted setenv_rejected) []
           (RemoteSSHCommand "vagrant" "key" "app1" "22" "run.sh"
              {[ "LANG" := "C"; "TERM" := "xterm" ]})))
   <= size ({[ "LANG" := "C"; "TERM" := "xterm" ]} : gmap string string))%nat.
Proof.
  split; [apply scripted_range_ok|].
  apply only_envVars_are_ever_set. apply scripted_range_ok.
Defined.

Lemma first_failure_ends_the_call_witness :
  LibError "ssh: setenv failed"
    ∈ omap failure_of
        (calls (scripted setenv_rejected) []
           (RemoteSSHCommand "vagrant" "key" "app1" "22" "run.sh"
              {[ "LANG" := "C" ]})) /\
  (exists format args,
     returns (scripted setenv_rejected) []
       (RemoteSSHCommand "vagrant" "key" "app1" "22" "run.sh"
          {[ "LANG" := "C" ]}) =
     Some (Errorf format (args ++ [ArgError (LibError "ssh: setenv failed")]))) /\
  exists en,
    failure_of en = Some (LibError "ssh: setenv failed") /\
    (from is_failure
       (calls (scripted setenv_rejected) []
          (RemoteSSHCommand "vagrant" "key" "app1" "22" "run.sh"
             {[ "LANG" := "C" ]})) = [en] \/
     exists s,
       from is_failure
         (calls (scripted setenv_rejected) []
            (RemoteSSHCommand "vagrant" "key" "app1" "22" "run.sh"
               {[ "LANG" := "C" ]})) = [en; Entry (Close s) tt]).
Proof.
  assert (Hin :
    LibError "ssh: setenv failed"
      ∈ omap failure_of
          (calls (scripted setenv_rejected) []
             (RemoteSSHCommand "vagrant" "key" "app1" "22" "run.sh"
                {[ "LANG" := "C" ]})))
    by (vm_compute; apply list_elem_of_here).
  split; [exact Hin|].
  exact (proj2 (first_failure_ends_the_call (scripted setenv_rejected) []
           "vagrant" "key" "app1" "22" "run.sh" {[ "LANG" := "C" ]}) _ Hin).
Defined.



(** In that run the dial with the nil auth method is never answered. *)
Example dial_with_nil_auth_panics :
  ends key_unreadable_dial_panics []
    (RemoteSSHCommand "vagrant" "key" "app1" "22" "run.sh" ∅) =
  NeverReturns
    (Dial "tcp" (JoinHostPort "app1" "22")
       (Some {| User := "vagrant"; Auth := [None]; Timeout := 0 |})).
Proof. reflexivity. Qed.

End SSHProperties.

(** * Properties of the host-claim protocol *)

Section ClaimProperties.
Import Claims.

Variable T_stale : nat.
Variable inventory : list HostEntry.

#[local] Arguments stale : simpl never.
#[local] Arguments claimable : simpl nomatch.

Lemma stale_mono now d c :
  stale T_stale now c -> stale T_stale (now + d) c.
Proof.
  unfold stale. rewrite !Is_true_true, !Nat.ltb_lt. lia.
Qed.

Lemma claimable_mono now d prior :
  claimable T_stale now prior -> claimable T_stale (now + d) prior.
Proof.
  destruct prior as [c|]; cbn; [|done].
  rewrite !orb_True. intros [H|H]; [left; by apply stale_mono|by right].
Qed.

Lemma candidates_claimable now snapshot h :
  h ∈ candidates T_stale now snapshot inventory ->
  claimable T_stale now (snapshot !! name h).
Proof.
  unfold candidates. rewrite merge_sort_Permutation.
  by intros [H _]%list_elem_of_filter.
Qed.

Lemma worker_set sys w ws w' :
  worker (set_worker sys w ws) w' =
  if decide (w = w') then ws else worker sys w'.
Proof.
  unfold worker, set_worker; cbn. rewrite lookup_insert.
  by destruct (decide (w = w')).
Qed.

(** A worker other than the one that wrote: it is as before, whatever
    it holds being stale or untouched by the write. *)
Lemma worker_ok_frame sys sys' w k cnew :
  now sys' = now sys ->
  worker sys' w = worker sys w ->
  store sys' = <[k := cnew]> (store sys) ->
  (forall h c, worker sys w = Holding h c -> name h = k ->
     store sys !! k = Some c -> stale T_stale (now sys) c \/ c = cnew) ->
  worker_ok T_stale sys w -> worker_ok T_stale sys' w.
Proof.
  intros Hnow Hw Hst Hover. unfold worker_ok. rewrite Hnow, Hw, Hst.
  destruct (worker sys w) as [|snap untried|h c] eqn:E; [done..|].
  intros (Ho & Ha & Hs). repeat split; [done..|].
  destruct Hs as [Hs|Hs]; [by left|].
  destruct (decide (name h = k)) as [Hk|Hk].
  - rewrite Hk in *. destruct (Hover h c eq_refl Hk Hs) as [?| ->]; [by left|].
    right. by rewrite lookup_insert_eq.
  - right. by rewrite lookup_insert_ne.
Qed.

Lemma worker_ok_same sys sys' w :
  now sys' = now sys -> worker sys' w = worker sys w ->
  store sys' = store sys ->
  worker_ok T_stale sys w -> worker_ok T_stale sys' w.
Proof. intros Hnow Hw Hst. unfold worker_ok. by rewrite Hnow, Hw, Hst. Qed.

Lemma worker_insert (ws : gmap string WorkerState) st nw w0 x w :
  worker {| store := st; now := nw; workers := <[w0 := x]> ws |} w =
  if decide (w0 = w) then x
  else worker {| store := st; now := nw; workers := ws |} w.
Proof.
  unfold worker; cbn. rewrite lookup_insert. by destruct (decide (w0 = w)).
Qed.

Lemma step_ok sys a :
  (forall w, worker_ok T_stale sys w) ->
  forall w, worker_ok T_stale (step T_stale inventory sys a) w.
Proof.
  intros Hok w. destruct a as [d|w0|w0|w0 st|w0]; cbn [step].
  - specialize (Hok w). unfold worker_ok, worker in *. cbn.
    destruct (default Idle (workers sys !! w)) as [|snap untried|h c]; [done|..].
    + intros h Hh. by apply claimable_mono, Hok.
    + destruct Hok as (?&?&[?|?]); repeat split; auto using stale_mono.
  - destruct (worker sys w0) eqn:E0; [|done..].
    destruct (decide (w0 = w)) as [-> |Hne].
    + unfold worker_ok. rewrite worker_set, decide_True by done. cbn.
      apply candidates_claimable.
    + apply (worker_ok_same sys); [done| |done|done].
      by rewrite worker_set, decide_False.
  - destruct (worker sys w0) as [|snap [|h rest]|] eqn:E0; [done| | |done].
    + destruct (decide (w0 = w)) as [-> |Hne].
      * unfold worker_ok. by rewrite worker_set, decide_True.
      * apply (worker_ok_same sys); [done| |done|done].
        by rewrite worker_set, decide_False.
    + pose proof (Hok w0) as Hw0. unfold worker_ok in Hw0. rewrite E0 in Hw0.
      unfold ConditionalWrite. destruct (decide _) as [Heq|Hneq].
      * destruct (decide (w0 = w)) as [-> |Hne].
        -- unfold worker_ok. rewrite worker_insert, decide_True by done. cbn.
           repeat split. right. by rewrite lookup_insert_eq.
        -- eapply (worker_ok_frame sys); [done| |reflexivity| |done].
           { rewrite worker_insert, decide_False by done. by destruct sys. }
           intros h' c' Hh' Hk Hs. left.
           assert (Hc : claimable T_stale (now sys) (Some c')).
           { rewrite <- Hs, Heq. apply Hw0. by left. }
           cbn in Hc. apply orb_True in Hc as [Hc|Hc]; [done|].
           apply bool_decide_unpack in Hc.
           specialize (Hok w). unfold worker_ok in Hok. rewrite Hh' in Hok.
           destruct Hok as (_ & Ha & _). by rewrite Hc in Ha.
      * destruct (decide (w0 = w)) as [-> |Hne].
        -- unfold worker_ok. rewrite worker_set, decide_True by done. cbn.
           intros h' Hh'. apply Hw0. by right.
        -- apply (worker_ok_same sys); [done| |done|done].
           by rewrite worker_set, decide_False.
  - destruct (worker sys w0) as [| |h c] eqn:E0; [done|done|].
    pose proof (Hok w0) as Hw0. unfold worker_ok in Hw0. rewrite E0 in Hw0.
    destruct Hw0 as (Ho & Ha & Hs).
    unfold ConditionalWrite. destruct (decide _) as [Heq|Hneq].
    + destruct (decide (w0 = w)) as [-> |Hne].
      * unfold worker_ok. rewrite worker_insert, decide_True by done.
        destruct (active st) eqn:Hst; [|done]. cbn.
        rewrite Hst. repeat split. right. by rewrite lookup_insert_eq.
      * eapply (worker_ok_frame sys); [done| |reflexivity| |done].
        { rewrite worker_insert, decide_False by done. by destruct sys. }
        intros h' c' Hh' Hk Hs'. exfalso. apply Hne.
        rewrite Heq in Hs'. injection Hs' as <-.
        specialize (Hok w). unfold worker_ok in Hok. rewrite Hh' in Hok.
        destruct Hok as (Ho' & _). congruence.
    + destruct (decide (w0 = w)) as [-> |Hne].
      * unfold worker_ok. by rewrite worker_set, decide_True.
      * apply (worker_ok_same sys); [done| |done|done].
        by rewrite worker_set, decide_False.
  - destruct (decide (w0 = w)) as [-> |Hne].
    + unfold worker_ok. by rewrite worker_set, decide_True.
    + apply (worker_ok_same sys); [done| |done|done].
      by rewrite worker_set, decide_False.
Qed.

Lemma init_ok w : worker_ok T_stale init w.
Proof. done. Qed.

Lemma run_ok acts sys :
  (forall w, worker_ok T_stale sys w) ->
  forall w, worker_ok T_stale (run T_stale inventory acts sys) w.
Proof.
  revert sys. induction acts as [|a acts IH]; intros sys Hok; [done|].
  cbn. apply IH. by apply step_ok.
Qed.

(** C1: after any steps of any workers over any inventory, the store
    holds at most one live claim record for a host; and the workers that
    hold that host under a live claim are one worker, whose claim is the
    one in the store. *)
Theorem at_most_one_live_claim_per_host acts hostName :
  let sys := run T_stale inventory acts init in
  (length (live_claims T_stale sys hostName) <= 1)%nat /\
  forall w1 w2 h1 h2 c1 c2,
    worker sys w1 = Holding h1 c1 -> worker sys w2 = Holding h2 c2 ->
    name h1 = hostName -> name h2 = hostName ->
    live T_stale (now sys) c1 -> live T_stale (now sys) c2 ->
    w1 = w2 /\ c1 = c2 /\ live_claims T_stale sys hostName = [c1].
Proof.
  intros sys. split.
  - unfold live_claims. destruct (store sys !! hostName) as [c|]; cbn; [|lia].
    destruct (decide _); cbn; lia.
  - intros w1 w2 h1 h2 c1 c2 H1 H2 Hn1 Hn2 Hl1 Hl2.
    pose proof (run_ok acts init init_ok w1) as Hw1.
    pose proof (run_ok acts init init_ok w2) as Hw2.
    fold sys in Hw1, Hw2. unfold worker_ok in Hw1, Hw2.
    rewrite H1 in Hw1. rewrite H2 in Hw2.
    destruct Hw1 as (Ho1 & _ & Hs1), Hw2 as (Ho2 & _ & Hs2).
    unfold live in Hl1, Hl2.
    apply andb_True in Hl1 as [_ Hf1], Hl2 as [Ha2 Hf2].
    apply negb_True in Hf1, Hf2.
    destruct Hs1 as [?|Hs1]; [done|]. destruct Hs2 as [?|Hs2]; [done|].
    rewrite Hn1 in Hs1. rewrite Hn2 in Hs2.
    assert (c1 = c2) as <- by congruence.
    split; [congruence|]. split; [done|].
    unfold live_claims. rewrite Hs1. cbn.
    rewrite decide_True; [done|].
    unfold live. apply andb_True. split; [done|by apply negb_True].
Qed.

End ClaimProperties.

Section ClaimScenarios.
Import Claims.

(** Two workers race for the one unclaimed host: the first write wins,
    the other worker ends with no host. *)
Example one_host_two_workers :
  let sys :=
    run 10 [app "1"]
      [BeginAcquire "pod-a"; BeginAcquire "pod-b"; TryCandidate "pod-b";
       TryCandidate "pod-a"; TryCandidate "pod-a"] init in
  worker sys "pod-b" =
    Holding (app "1")
      {| ownerId := "pod-b"; state := Claiming; lastHeartbeat := 0 |} /\
  worker sys "pod-a" = Idle.
Proof. vm_compute. by split. Qed.

(** Candidates are tried in the order of their names. *)
Example first_host_by_name :
  worker
    (run 10 [app "3"; app "1"; app "2"]
       [BeginAcquire "pod-a"; TryCandidate "pod-a"] init) "pod-a" =
  Holding (app "1")
    {| ownerId := "pod-a"; state := Claiming; lastHeartbeat := 0 |}.
Proof. vm_compute. reflexivity. Qed.

(** A worker that stopped heartbeating loses its host to another once
    the claim is stale, and not before. *)
Example stale_claim_is_taken_over :
  let crashed :=
    run 10 [app "2"]
      [BeginAcquire "pod-a"; TryCandidate "pod-a";
       StatusWrite "pod-a" Running; Crash "pod-a"] init in
  worker
    (run 10 [app "2"]
       [Tick 10; BeginAcquire "pod-b"; TryCandidate "pod-b"] crashed)
    "pod-b" = Idle /\
  worker
    (run 10 [app "2"]
       [Tick 11; BeginAcquire "pod-b"; TryCandidate "pod-b"] crashed)
    "pod-b" =
  Holding (app "2")
    {| ownerId := "pod-b"; state := Claiming; lastHeartbeat := 11 |}.
Proof. vm_compute. by split. Qed.

Lemma at_most_one_live_claim_per_host_witness :
  let sys :=
    run 10 [app "1"]
      [BeginAcquire "pod-a"; BeginAcquire "pod-b"; TryCandidate "pod-b";
       TryCandidate "pod-a"; TryCandidate "pod-a"; Tick 3;
       StatusWrite "pod-b" Running; Tick 5] init in
  let c := {| ownerId := "pod-b"; state := Running; lastHeartbeat := 3 |} in
  worker sys "pod-b" = Holding (app "1") c /\
  live 10 (now sys) c /\
  (length (live_claims 10 sys "app1") <= 1)%nat /\
  live_claims 10 sys "app1" = [c].
Proof.
  intros sys c.
  assert (Hw : worker sys "pod-b" = Holding (app "1") c)
    by (vm_compute; reflexivity).
  assert (Hl : live 10 (now sys) c) by (vm_compute; exact I).
  pose proof (at_most_one_live_claim_per_host 10 [app "1"]
    [BeginAcquire "pod-a"; BeginAcquire "pod-b"; TryCandidate "pod-b";
     TryCandidate "pod-a"; TryCandidate "pod-a"; Tick 3;
     StatusWrite "pod-b" Running; Tick 5] "app1") as [Hle Hex].
  destruct (Hex "pod-b" "pod-b" (app "1") (app "1") c c Hw Hw
              eq_refl eq_refl Hl Hl) as (_ & _ & Hlc).
  exact (conj Hw (conj Hl (conj Hle Hlc))).
Defined.

End ClaimScenarios.
